(** * tap-github: the stream classes of [tap_github/streams.py]

    A shallow embedding of the five stream classes (repositories, events,
    issues, issue comments, issue events) and of the Python operations
    they are written with, followed by the properties of the design
    specification that can be stated over them.

    Python data is modelled dynamically, as the code receives it: a JSON
    document is a [value], a [dict] with string keys is a finite map from
    strings to values, and an operation that can raise returns a [result]. *)

From Stdlib Require Import ZArith String Ascii List Lia.
From Stdlib Require Import Floats.SpecFloat.
From Stdlib Require Import DecimalString DecimalNat DecimalFacts.
From stdpp Require Import base functions option list gmap strings.

#[local] Set Warnings "-clear-no-such-hyp".

Local Open Scope string_scope.
Local Open Scope Z_scope.

(** ** Python values *)

(** What [json.loads] (and so [response.json()] and the tap configuration)
    produces: [None], [bool], [int], [float], [str], [list] and [dict].
    A Python [float] is an IEEE 754 binary64 number, kept here as its
    [spec_float] decomposition. A [str] is kept as its UTF-8 bytes; the
    only separator the streams split on is the ASCII ['/'], which occurs
    in UTF-8 text only as itself. *)
#[warnings="-register-all"]
Inductive value : Type :=
  | VNull
  | VBool (b : bool)
  | VInt (n : Z)
  | VFloat (f : spec_float)
  | VStr (s : string)
  | VList (l : list value)
  | VObj (m : gmap string value).

(** A Python [dict] keyed by strings: records, contexts and the tap
    configuration. *)
Abbreviation dict := (gmap string value).

#[global] Instance value_inhabited : Inhabited value := populate VNull.

#[global] Instance spec_float_eq_dec : EqDecision spec_float.
Proof. solve_decision. Defined.

(** *** Equality of values is decidable

    Contexts are compared as Python compares dicts, by content; the
    test recurses through lists and dicts. *)

Fixpoint value_size (v : value) : nat :=
  match v with
  | VList l => S (foldr (λ x acc, value_size x + acc)%nat 0%nat l)
  | VObj m => S (map_fold (λ _ x acc, value_size x + acc)%nat 0%nat m)
  | _ => 1
  end.

Fixpoint value_eqb (v w : value) : bool :=
  match v, w with
  | VNull, VNull => true
  | VBool a, VBool b => bool_decide (a = b)
  | VInt a, VInt b => bool_decide (a = b)
  | VFloat a, VFloat b => bool_decide (a = b)
  | VStr a, VStr b => bool_decide (a = b)
  | VList l, VList k =>
      (fix go (l k : list value) : bool :=
         match l, k with
         | [], [] => true
         | x :: l', y :: k' => value_eqb x y && go l' k'
         | _, _ => false
         end) l k
  | VObj m, VObj n =>
      bool_decide (dom m = dom n) &&
      map_fold (λ i x acc,
                  acc && match n !! i with
                         | Some y => value_eqb x y
                         | None => false
                         end) true m
  | _, _ => false
  end.

Lemma value_size_elem (l : list value) (x : value) :
  x ∈ l → (value_size x < value_size (VList l))%nat.
Proof. induction 1; simpl in *; lia. Qed.

Lemma value_size_lookup (m : gmap string value) (k : string) (x : value) :
  m !! k = Some x → (value_size x < value_size (VObj m))%nat.
Proof.
  intros Hk. simpl.
  rewrite <-(insert_delete_id m k x Hk).
  rewrite map_fold_insert_L; [lia|intros; lia|apply lookup_delete_eq].
Qed.

(** Induction on a value with the hypothesis available for every element
    of a list and every entry of a dict. *)
Lemma value_ind' (P : value → Prop) :
  P VNull → (∀ b, P (VBool b)) → (∀ n, P (VInt n)) → (∀ f, P (VFloat f)) →
  (∀ s, P (VStr s)) →
  (∀ l, Forall P l → P (VList l)) →
  (∀ m, map_Forall (λ _, P) m → P (VObj m)) →
  ∀ v, P v.
Proof.
  intros Hnull Hbool Hint Hfloat Hstr Hlist Hobj v.
  assert (∀ n v, (value_size v < n)%nat → P v) as Hsize; [|by eauto].
  clear v. induction n as [|n IH]; intros v Hv; [lia|].
  destruct v as [| | | | |l|m]; auto.
  - apply Hlist, Forall_forall. intros x Hx. apply IH.
    apply value_size_elem in Hx. lia.
  - apply Hobj. intros k x Hk. apply IH.
    apply value_size_lookup in Hk. lia.
Qed.

Lemma map_fold_andb_true {A} (p : string → A → bool) (m : gmap string A) :
  map_fold (λ i x acc, acc && p i x) true m = true ↔
  map_Forall (λ i x, p i x = true) m.
Proof.
  apply (map_fold_weak_ind
    (λ r m, r = true ↔ map_Forall (λ i x, p i x = true) m)).
  - split; [intros _; apply map_Forall_empty|done].
  - intros i x m' r Hi IH. rewrite andb_true_iff, IH, map_Forall_insert by done.
    tauto.
Qed.

Lemma value_eqb_eq (v w : value) : value_eqb v w = true ↔ v = w.
Proof.
  revert w. induction v as [|a|a|a|a|l IH|m IH] using value_ind';
    intros [|b|b|b|b|k|n]; cbn; try (split; [done|discriminate]);
    try (rewrite bool_decide_eq_true; split; congruence).
  - split; [done|done].
  - revert k. induction IH as [|x l Hx _ IHl]; intros [|y k];
      try (split; [done|discriminate]); [done|].
    rewrite andb_true_iff, Hx, IHl. split; [intros [-> [= ->]]; done|].
    intros [= -> ->]. done.
  - rewrite andb_true_iff, bool_decide_eq_true, map_fold_andb_true.
    split.
    + intros [Hdom Hall]. f_equal. apply map_eq. intros i.
      destruct (m !! i) as [x|] eqn:Hx.
      * specialize (Hall i x Hx). cbn in Hall.
        destruct (n !! i) as [y|]; [|done].
        apply (IH i x Hx) in Hall. by subst.
      * apply not_elem_of_dom in Hx. rewrite Hdom in Hx.
        by apply not_elem_of_dom in Hx.
    + intros [= ->]. split; [done|]. intros i x Hx. cbn. rewrite Hx.
      by apply (IH i x Hx).
Qed.

#[global] Instance value_eq_dec : EqDecision value.
Proof.
  intros v w. destruct (value_eqb v w) eqn:E.
  - left. by apply value_eqb_eq.
  - right. intros H. apply value_eqb_eq in H. congruence.
Defined.

(** The exceptions the embedded code can raise. *)
Inductive exn : Type :=
  | KeyError (key : string)
  | IndexError
  | TypeError
  | AttributeError
  | ValueError
  | OverflowError.

#[global] Instance exn_eq_dec : EqDecision exn.
Proof. solve_decision. Defined.

(** ** Fallible computations *)

Inductive result (A : Type) : Type :=
  | Ok (a : A)
  | Raise (e : exn).
Arguments Ok {A} a.
Arguments Raise {A} e.

#[global] Instance result_ret : MRet result := λ A a, Ok a.
#[global] Instance result_bind : MBind result := λ A B f m,
  match m with
  | Ok a => f a
  | Raise e => Raise e
  end.
#[global] Instance result_fmap : FMap result := λ A B f m,
  match m with
  | Ok a => Ok (f a)
  | Raise e => Raise e
  end.

Definition returns {A} (m : result A) : Prop := ∃ a, m = Ok a.

(** A method that updates a Python object in place is a function of the
    object's state: it gives back an outcome and the state the object is
    left in, which survives an exception raised half-way. *)
Definition mut (S A : Type) : Type := S → result A * S.

#[global] Instance mut_ret {S} : MRet (mut S) := λ A a s, (Ok a, s).
#[global] Instance mut_bind {S} : MBind (mut S) := λ A B f m s,
  match m s with
  | (Ok a, s') => f a s'
  | (Raise e, s') => (Raise e, s')
  end.

Definition lift {S A} (r : result A) : mut S A := λ s, (r, s).

(** [on s m]: the method body [m] run on the object [s]. *)
Definition on {S A} (s : S) (m : mut S A) : result A * S := m s.

(** ** The Python operations the streams use *)

(** What [int] makes of a string is the same on every interpreter only
    within a common core. A character beyond ASCII is read with the
    interpreter's Unicode tables (other decimal digits, other spaces), and
    a long string of digits is refused by the interpreters that limit
    their number ([sys.set_int_max_str_digits], a limit that is never
    below 640). Outside the core, [int] on a string is the interpreter's,
    a parameter here. *)
Class PythonRuntime : Type := {
  runtime_int_of_str : string → result Z;
}.

Module Py.

(** [d[k]] on a dict. *)
Definition dict_getitem (d : dict) (k : string) : result value :=
  match d !! k with
  | Some v => Ok v
  | None => Raise (KeyError k)
  end.

(** [v[k]] with a string key, on whatever [v] is: only a dict can be
    subscripted with a string. *)
Definition getitem (v : value) (k : string) : result value :=
  match v with
  | VObj d => dict_getitem d k
  | _ => Raise TypeError
  end.

(** [k in d]. *)
Definition contains (d : dict) (k : string) : bool :=
  bool_decide (is_Some (d !! k)).

(** [d.get(k, None)]. *)
Definition dict_get (d : dict) (k : string) : value :=
  default VNull (d !! k).

(** Truth value of a dict: false exactly when it is empty. *)
Definition dict_truthy (d : dict) : bool := negb (bool_decide (d = ∅)).

(** [v == 0]: numbers compare by value across [int], [bool] and
    [float]; anything else is different from [0]. *)
Definition eq_zero (v : value) : bool :=
  match v with
  | VInt n => bool_decide (n = 0)
  | VBool b => negb b
  | VFloat (S754_zero _) => true
  | _ => false
  end.

(** [l[i]] on a list; a negative index counts from the end. *)
Definition list_getitem {A} (l : list A) (i : Z) : result A :=
  let j := if bool_decide (i < 0) then i + Z.of_nat (length l) else i in
  if bool_decide (j < 0) then Raise IndexError
  else match l !! Z.to_nat j with
       | Some x => Ok x
       | None => Raise IndexError
       end.

(** [s.split(sep)] for a one-character separator: the segments between
    the occurrences of [sep], empty ones included; never an empty list. *)
Fixpoint split (sep : ascii) (s : string) : list string :=
  match s with
  | EmptyString => [EmptyString]
  | String c s' =>
      if bool_decide (c = sep) then EmptyString :: split sep s'
      else match split sep s' with
           | [] => [String c EmptyString]
           | seg :: segs => String c seg :: segs
           end
  end.

(** [v.split(sep)] on whatever [v] is: only [str] has the method. *)
Definition str_split (v : value) (sep : ascii) : result (list value) :=
  match v with
  | VStr s => Ok (VStr <$> split sep s)
  | _ => Raise AttributeError
  end.

(** The elements [for x in v] goes through. A [str] gives its
    characters and a dict its keys (Python enumerates the keys in
    insertion order, which a finite map does not record: the order here
    is the map's own). *)
Definition iter (v : value) : result (list value) :=
  match v with
  | VList l => Ok l
  | VStr s => Ok ((λ c, VStr (String c EmptyString)) <$> list_ascii_of_string s)
  | VObj d => Ok (VStr <$> (map_to_list d).*1)
  | _ => Raise TypeError
  end.

(** *** [int(...)] *)

(** The white space [int] strips from both ends of an ASCII string: tab,
    line feed, vertical tab, form feed, carriage return and space. *)
Definition is_space (c : ascii) : bool :=
  let n := nat_of_ascii c in
  ((9 <=? n) && (n <=? 13) || (n =? 32))%nat.

Definition digit_val (c : ascii) : option Z :=
  let n := nat_of_ascii c in
  if ((48 <=? n) && (n <=? 57))%nat then Some (Z.of_nat n - 48) else None.

Fixpoint lstrip (l : list ascii) : list ascii :=
  match l with
  | c :: l' => if is_space c then lstrip l' else l
  | [] => []
  end.

Definition strip (l : list ascii) : list ascii :=
  rev (lstrip (rev (lstrip l))).

(** Decimal digits, single underscores allowed between two digits.
    [after_digit] tells whether the previous character was a digit. *)
Fixpoint digits (acc : Z) (after_digit : bool) (l : list ascii) : option Z :=
  match l with
  | [] => if after_digit then Some acc else None
  | c :: l' =>
      if bool_decide (c = "_"%char) then
        if after_digit then digits acc false l' else None
      else match digit_val c with
           | Some d => digits (10 * acc + d) true l'
           | None => None
           end
  end.

(** The strings of the common core: ASCII only, and at most 640
    characters, so that no limit on the number of digits can apply. *)
Definition is_ascii (s : string) : bool :=
  forallb (λ c, (nat_of_ascii c <? 128)%nat) (list_ascii_of_string s).

Definition in_core (s : string) : bool :=
  is_ascii s && (String.length s <=? 640)%nat.

(** [int(s)] for a string of the core: optional white space, an optional
    sign, digits; anything else is a [ValueError]. *)
Definition int_of_ascii (s : string) : result Z :=
  let signed :=
    match strip (list_ascii_of_string s) with
    | "+"%char :: l => digits 0 false l
    | "-"%char :: l => Z.opp <$> digits 0 false l
    | l => digits 0 false l
    end in
  match signed with
  | Some n => Ok n
  | None => Raise ValueError
  end.

(** [int(s)] for a string. *)
Definition int_of_str `{!PythonRuntime} (s : string) : result Z :=
  if in_core s then int_of_ascii s else runtime_int_of_str s.

(** [int(f)] for a float: truncation towards zero. *)
Definition int_of_float (f : spec_float) : result Z :=
  match f with
  | S754_zero _ => Ok 0
  | S754_finite s m e =>
      let a := if bool_decide (0 ≤ e) then Z.pos m * 2 ^ e
               else Z.pos m / 2 ^ (- e) in
      Ok (if s then - a else a)
  | S754_infinity _ => Raise OverflowError
  | S754_nan => Raise ValueError
  end.

(** [int(v)]. *)
Definition int `{!PythonRuntime} (v : value) : result Z :=
  match v with
  | VInt n => Ok n
  | VBool b => Ok (if b then 1 else 0)
  | VFloat f => int_of_float f
  | VStr s => int_of_str s
  | VNull | VList _ | VObj _ => Raise TypeError
  end.

(** *** In-place operations on a dict *)

(** [d[k]], reading the object's current state. *)
Definition getitem_m (k : string) : mut dict value :=
  λ d, (dict_getitem d k, d).

(** [d[k] = v]. *)
Definition setitem_m (k : string) (v : value) : mut dict unit :=
  λ d, (Ok (), <[k := v]> d).

(** [d.pop(k)]: the value is removed and returned; a missing key raises
    and leaves the dict as it was. *)
Definition pop_m (k : string) : mut dict value :=
  λ d, match d !! k with
       | Some v => (Ok v, delete k d)
       | None => (Raise (KeyError k), d)
       end.

(** [return d]: the object itself is handed back. *)
Definition self_m : mut dict dict := λ d, (Ok d, d).

End Py.

(** ** What the streams inherit *)

(** What a stream does to the outside while it produces records: a line
    in the debug log, or a run of the inherited request loop. *)
Inductive event : Type :=
  | LogDebug (msg : string)
  | Fetch (stream : string) (context : option dict).

(** The two inherited methods the stream classes call through [super()].
    They live in the base classes ([tap_github.client.GitHubStream] and
    the SDK's [RESTStream]); the streams only delegate to them, so they
    are parameters here. *)
Class GitHubStream : Type := {
  (** [RESTStream.parse_response], by the JSONPath of the stream and the
      decoded body: the records the path selects. *)
  rest_parse_response : string → value → list value;
  (** [GitHubStream.get_records], by the stream's name and the context:
      the records the normal request loop yields. *)
  base_get_records : string → option dict → list dict;
}.

(** The two inherited members the stream classes read through [super()]
    when a request is prepared: [get_url_params], by the context and the
    page token, and the [http_headers] property. Each hands out a new
    dict. *)
Class GitHubRequest : Type := {
  base_get_url_params : option dict → option value → dict;
  base_http_headers : dict;
}.

(** How a method with an [assert] ends: it returns, it raises, or the
    assertion fails with its message. *)
Inductive outcome (A : Type) : Type :=
  | Returned (a : A)
  | Raised (e : exn)
  | AssertionError (msg : string).
Arguments Returned {A} a.
Arguments Raised {A} e.
Arguments AssertionError {A} msg.

(** The types a schema is declared with ([singer_sdk.typing]). *)
#[warnings="-register-all"]
Inductive jsontype : Type :=
  | StringType
  | IntegerType
  | BooleanType
  | DateTimeType
  | ObjectType (properties : list (string * jsontype))
  | ArrayType (items : jsontype).

(** ** [class RepositoryStream] *)

Module RepositoryStream.

Definition MAX_PER_PAGE : Z := 100.
Definition MAX_RESULTS_LIMIT : Z := 1000.

Definition name : string := "repositories".

Definition path (config : dict) : string :=
  if Py.contains config "searches" then "/search/repositories"
  else "/repos/{org}/{repo}".

Definition records_jsonpath (config : dict) : string :=
  if Py.contains config "searches" then "$.items[*]"
  else "$[*]".

(** The element of the first comprehension of [partitions]:
    [{"search_name": s["name"], "search_query": s["query"]}]. *)
Definition search_partition (s : value) : result dict :=
  search_name ← Py.getitem s "name";
  search_query ← Py.getitem s "query";
  Ok {[ "search_name" := search_name; "search_query" := search_query ]}.

(** The element of the second one, the [lambda] of the [map] included:
    [r = s.split("/")] and then [{"org": r[0], "repo": r[1]}]. *)
Definition repo_partition (s : value) : result dict :=
  r ← Py.str_split s "/";
  org ← Py.list_getitem r 0;
  repo ← Py.list_getitem r 1;
  Ok {[ "org" := org; "repo" := repo ]}.

Definition partitions (config : dict) : result (option (list dict)) :=
  if Py.contains config "searches" then
    searches ← Py.dict_getitem config "searches";
    ss ← Py.iter searches;
    Some <$> mapM search_partition ss
  else if Py.contains config "repositories" then
    repositories ← Py.dict_getitem config "repositories";
    rs ← Py.iter repositories;
    Some <$> mapM repo_partition rs
  else Ok None.

(** [response_json] is [response.json()], the decoded body. *)
Definition parse_response `{!GitHubStream}
    (config : dict) (response_json : value) : list value :=
  if Py.contains config "searches" then
    rest_parse_response (records_jsonpath config) response_json
  else [response_json].

(** A new dict is built; [context] is not looked at. *)
Definition get_child_context (record : dict) (context : option dict)
    : result dict :=
  owner ← Py.dict_getitem record "owner";
  org ← Py.getitem owner "login";
  repo ← Py.dict_getitem record "name";
  Ok {[ "org" := org; "repo" := repo ]}.

(** The parameters of the request for [context]; in search mode the
    query of the partition is added to the inherited ones. The [assert]
    is taken as executed, as it is unless Python runs with [-O]. *)
Definition get_url_params `{!GitHubRequest}
    (context : option dict) (next_page_token : option value) : outcome dict :=
  match context with
  | None =>
      AssertionError ("Context cannot be empty for '" +:+ name +:+ "' stream.")
  | Some c =>
      let params := base_get_url_params context next_page_token in
      if Py.contains c "search_query" then
        match Py.dict_getitem c "search_query" with
        | Ok q => Returned (<["q" := q]> params)
        | Raise e => Raised e
        end
      else Returned params
  end.

(** The properties [schema] is declared with, in order: the arguments of
    [th.PropertiesList]. *)
Definition schema : list (string * jsontype) :=
  [
    ("search_name", StringType);
    ("search_query", StringType);
    ("id", IntegerType);
    ("node_id", StringType);
    ("repo", StringType);
    ("org", StringType);
    ("name", StringType);
    ("full_name", StringType);
    ("description", StringType);
    ("html_url", StringType);
    ("owner", ObjectType [
        ("login", StringType);
        ("id", IntegerType);
        ("node_id", StringType);
        ("type", StringType);
        ("avatar_url", StringType);
        ("html_url", StringType);
        ("site_admin", BooleanType) ]);
    ("license", ObjectType [
        ("key", StringType);
        ("name", StringType);
        ("url", StringType);
        ("spdx_id", StringType) ]);
    ("master_branch", StringType);
    ("default_branch", StringType);
    ("updated_at", DateTimeType);
    ("created_at", DateTimeType);
    ("pushed_at", DateTimeType);
    ("git_url", StringType);
    ("ssh_url", StringType);
    ("clone_url", StringType);
    ("homepage", StringType);
    ("private", BooleanType);
    ("archived", BooleanType);
    ("disabled", BooleanType);
    ("size", IntegerType);
    ("stargazers_count", IntegerType);
    ("fork", BooleanType);
    ("forks", IntegerType);
    ("forks_count", IntegerType);
    ("watchers", IntegerType);
    ("watchers_count", IntegerType);
    ("open_issues", IntegerType);
    ("network_count", IntegerType);
    ("subscribers_count", IntegerType);
    ("open_issues_count", IntegerType);
    ("allow_squash_merge", BooleanType);
    ("allow_merge_commit", BooleanType);
    ("allow_rebase_merge", BooleanType);
    ("allow_auto_merge", BooleanType);
    ("delete_branch_on_merge", BooleanType);
    ("organization", ObjectType [
        ("login", StringType);
        ("id", IntegerType);
        ("node_id", StringType);
        ("avatar_url", StringType);
        ("gravatar_id", StringType);
        ("url", StringType);
        ("html_url", StringType);
        ("type", StringType);
        ("site_admin", BooleanType) ]) ].

End RepositoryStream.

(** ** [class EventsStream] *)

Module EventsStream.

Definition name : string := "events".
Definition path : string := "/repos/{org}/{repo}/events".
Definition primary_keys : list string := ["id"].
Definition replication_key : string := "created_at".
Definition state_partitioning_keys : list string := ["repo"; "org"].

(** The records, and what was done to get them. *)
Definition get_records `{!GitHubStream} (context : option dict)
    : list dict * list event :=
  let no_events :=
    match context with
    | Some c => Py.dict_truthy c && Py.eq_zero (Py.dict_get c "events")
    | None => false
    end in
  if no_events then
    ([], [LogDebug ("No events detected. Skipping '" +:+ name +:+ "' sync.")])
  else (base_get_records name context, [Fetch name context]).

(** [row] is updated in place and handed back: the outcome, and the
    state [row] is left in. *)
Definition post_process (row : dict) (context : option dict)
    : result dict * dict :=
  on row (
  repo ← Py.pop_m "repo";
  Py.setitem_m "target_repo" repo;;
  org ← Py.pop_m "org";
  Py.setitem_m "target_org" org;;
  Py.self_m).

(** The properties [schema] is declared with, in order: the arguments of
    [th.PropertiesList]. *)
Definition schema : list (string * jsontype) :=
  [
    ("id", IntegerType);
    ("type", StringType);
    ("repo", StringType);
    ("org", StringType);
    ("public", BooleanType);
    ("payload", StringType);
    ("_sdc_repository", StringType);
    ("created_at", DateTimeType);
    ("distinct_size", IntegerType);
    ("head", StringType);
    ("push_id", IntegerType);
    ("ref", StringType);
    ("size", IntegerType);
    ("target_repo", ObjectType [
        ("id", StringType);
        ("name", StringType) ]);
    ("target_org", ObjectType [
        ("id", StringType);
        ("login", StringType) ]);
    ("actor", ObjectType [
        ("id", IntegerType);
        ("login", StringType);
        ("display_login", StringType);
        ("avatar_url", StringType);
        ("gravatar_id", StringType);
        ("url", StringType) ]);
    ("payload", ObjectType [
        ("before", StringType);
        ("action", StringType);
        ("comment", StringType);
        ("issue", StringType);
        ("description", StringType);
        ("master_branch", StringType);
        ("pusher_type", StringType);
        ("ref", StringType);
        ("ref_type", StringType);
        ("commits", ArrayType (ObjectType [
              ("author", ObjectType [
                  ("email", StringType);
                  ("name", StringType) ]);
              ("distinct", BooleanType);
              ("message", StringType);
              ("sha", StringType);
              ("url", StringType) ])) ]) ].

End EventsStream.

(** ** [class IssuesStream] *)

Module IssuesStream.

Definition name : string := "issues".
Definition path : string := "/repos/{org}/{repo}/issues".
Definition primary_keys : list string := ["id"].
Definition replication_key : string := "updated_at".
Definition state_partitioning_keys : list string := ["repo"; "org"].

(** [context], when it is a dict, is updated in place and handed back:
    the outcome, and the state the caller's [context] is left in. *)
Definition get_child_context (record : dict) (context : option dict)
    : result dict * option dict :=
  match context with
  | None => (Raise ValueError, None)
  | Some c =>
      prod_map id Some (on c (
        number ← lift (Py.dict_getitem record "number");
        Py.setitem_m "issue_number" number;;
        comments ← lift (Py.dict_getitem record "comments");
        Py.setitem_m "comments" comments;;
        Py.self_m))
  end.

(** The inherited headers with [Accept] set to the reactions preview. *)
Definition http_headers `{!GitHubRequest} : dict :=
  <["Accept" := VStr "application/vnd.github.squirrel-girl-preview"]>
    base_http_headers.

(** The properties [schema] is declared with, in order: the arguments of
    [th.PropertiesList]. *)
Definition schema : list (string * jsontype) :=
  [
    ("id", IntegerType);
    ("node_id", StringType);
    ("url", StringType);
    ("html_url", StringType);
    ("repo", StringType);
    ("org", StringType);
    ("number", IntegerType);
    ("updated_at", DateTimeType);
    ("created_at", DateTimeType);
    ("closed_at", DateTimeType);
    ("state", StringType);
    ("title", StringType);
    ("comments", IntegerType);
    ("author_association", StringType);
    ("body", StringType);
    ("user", ObjectType [
        ("login", StringType);
        ("id", IntegerType);
        ("node_id", StringType);
        ("avatar_url", StringType);
        ("gravatar_id", StringType);
        ("html_url", StringType);
        ("type", StringType);
        ("site_admin", BooleanType) ]);
    ("labels", ArrayType (ObjectType [
          ("id", IntegerType);
          ("node_id", StringType);
          ("url", StringType);
          ("name", StringType);
          ("description", StringType);
          ("color", StringType);
          ("default", BooleanType) ]));
    ("assignee", ObjectType [
        ("login", StringType);
        ("id", IntegerType);
        ("node_id", StringType);
        ("avatar_url", StringType);
        ("gravatar_id", StringType);
        ("html_url", StringType);
        ("type", StringType);
        ("site_admin", BooleanType) ]);
    ("assignees", ArrayType (ObjectType [
          ("login", StringType);
          ("id", IntegerType);
          ("node_id", StringType);
          ("avatar_url", StringType);
          ("gravatar_id", StringType);
          ("html_url", StringType);
          ("type", StringType);
          ("site_admin", BooleanType) ]));
    ("milestone", ObjectType [
        ("html_url", StringType);
        ("node_id", StringType);
        ("id", IntegerType);
        ("number", IntegerType);
        ("state", StringType);
        ("title", StringType);
        ("description", StringType);
        ("creator", ObjectType [
            ("login", StringType);
            ("id", IntegerType);
            ("node_id", StringType);
            ("avatar_url", StringType);
            ("gravatar_id", StringType);
            ("html_url", StringType);
            ("type", StringType);
            ("site_admin", BooleanType) ]);
        ("open_issues", IntegerType);
        ("closed_issues", IntegerType);
        ("created_at", DateTimeType);
        ("updated_at", DateTimeType);
        ("closed_at", DateTimeType);
        ("due_on", DateTimeType) ]);
    ("locked", BooleanType);
    ("pull_request", ObjectType [
        ("html_url", StringType);
        ("url", StringType);
        ("diff_url", StringType);
        ("patch_url", StringType) ]) ].

End IssuesStream.

(** ** [class IssueCommentsStream] *)

Module IssueCommentsStream.

Definition name : string := "issue_comments".
Definition path : string := "/repos/{org}/{repo}/issues/comments".
Definition primary_keys : list string := ["id"].
Definition replication_key : string := "updated_at".
Definition state_partitioning_keys : list string := ["repo"; "org"].

Definition get_records `{!GitHubStream} (context : option dict)
    : list dict * list event :=
  let no_comments :=
    match context with
    | Some c => Py.dict_truthy c && Py.eq_zero (Py.dict_get c "comments")
    | None => false
    end in
  if no_comments then
    ([], [LogDebug ("No comments detected. Skipping '" +:+ name +:+ "' sync.")])
  else (base_get_records name context, [Fetch name context]).

Definition post_process `{!PythonRuntime} (row : dict) (context : option dict)
    : result dict * dict :=
  on row (
  issue_url ← Py.getitem_m "issue_url";
  segments ← lift (Py.str_split issue_url "/");
  last ← lift (Py.list_getitem segments (-1));
  issue_number ← lift (Py.int last);
  Py.setitem_m "issue_number" (VInt issue_number);;
  Py.self_m).

(** The properties [schema] is declared with, in order: the arguments of
    [th.PropertiesList]. *)
Definition schema : list (string * jsontype) :=
  [
    ("id", IntegerType);
    ("node_id", StringType);
    ("issue_number", IntegerType);
    ("repo", StringType);
    ("org", StringType);
    ("issue_url", StringType);
    ("updated_at", DateTimeType);
    ("created_at", DateTimeType);
    ("author_association", StringType);
    ("body", StringType);
    ("user", ObjectType [
        ("login", StringType);
        ("id", IntegerType);
        ("node_id", StringType);
        ("avatar_url", StringType);
        ("gravatar_id", StringType);
        ("html_url", StringType);
        ("type", StringType);
        ("site_admin", BooleanType) ]) ].

End IssueCommentsStream.

(** ** [class IssueEventsStream] *)

Module IssueEventsStream.

Definition name : string := "issue_events".
Definition path : string := "/repos/{org}/{repo}/issues/events".
Definition primary_keys : list string := ["id"].
Definition replication_key : string := "created_at".
Definition state_partitioning_keys : list string := ["repo"; "org"].

Definition get_records `{!GitHubStream} (context : option dict)
    : list dict * list event :=
  let no_events :=
    match context with
    | Some c => Py.dict_truthy c && Py.eq_zero (Py.dict_get c "events")
    | None => false
    end in
  if no_events then
    ([], [LogDebug ("No events detected. Skipping '" +:+ name +:+ "' sync.")])
  else (base_get_records name context, [Fetch name context]).

Definition post_process `{!PythonRuntime} (row : dict) (context : option dict)
    : result dict * dict :=
  on row (
  issue ← Py.getitem_m "issue";
  number ← lift (Py.getitem issue "number");
  issue_number ← lift (Py.int number);
  Py.setitem_m "issue_number" (VInt issue_number);;
  issue ← Py.getitem_m "issue";
  url ← lift (Py.getitem issue "url");
  Py.setitem_m "issue_url" url;;
  Py.self_m).

(** The properties [schema] is declared with, in order: the arguments of
    [th.PropertiesList]. *)
Definition schema : list (string * jsontype) :=
  [
    ("id", IntegerType);
    ("node_id", StringType);
    ("repo", StringType);
    ("org", StringType);
    ("issue_number", IntegerType);
    ("issue_url", StringType);
    ("event", StringType);
    ("commit_id", StringType);
    ("commit_url", StringType);
    ("created_at", DateTimeType);
    ("actor", ObjectType [
        ("login", StringType);
        ("id", IntegerType);
        ("node_id", StringType);
        ("avatar_url", StringType);
        ("gravatar_id", StringType);
        ("html_url", StringType);
        ("type", StringType);
        ("site_admin", BooleanType) ]) ].

End IssueEventsStream.

(** * The streams taken together, and the vocabulary of the properties *)

(** ** Strings *)

(** The characters of a string. *)
Definition chars (s : string) : list ascii := list_ascii_of_string s.

(** [sep.join(l)]. *)
Fixpoint join (sep : ascii) (l : list string) : string :=
  match l with
  | [] => ""
  | [s] => s
  | s :: l' => s +:+ String sep (join sep l')
  end.



(** ** Partitions *)

(** What the specification asks of an ["org/repo"] string: exactly two
    segments, none of them empty. *)
Definition two_nonempty_segments (s : string) : Prop :=
  ∃ org repo, Py.split "/" s = [org; repo] ∧ org ≠ "" ∧ repo ≠ "".

(** The partition the code builds from a string: its first two
    segments. *)
Definition first_two_segments (s : string) (p : dict) : Prop :=
  ∃ org repo rest,
    Py.split "/" s = org :: repo :: rest ∧
    p = {[ "org" := VStr org; "repo" := VStr repo ]}.

(** A well-formed entry of [searches] and the partition made from it. *)
Definition search_entry (s : value) (p : dict) : Prop :=
  ∃ d name query,
    s = VObj d ∧ d !! "name" = Some name ∧ d !! "query" = Some query ∧
    p = {[ "search_name" := name; "search_query" := query ]}.

(** ** The five streams *)

(** The stream classes of the module, in the order they are declared. *)
Inductive stream : Type :=
  | Repositories
  | Events
  | Issues
  | IssueComments
  | IssueEvents.

(** The [name] attribute of each class. *)
Definition stream_name (s : stream) : string :=
  match s with
  | Repositories => RepositoryStream.name
  | Events => EventsStream.name
  | Issues => IssuesStream.name
  | IssueComments => IssueCommentsStream.name
  | IssueEvents => IssueEventsStream.name
  end.

(** The inherited [get_records]: the request loop runs. *)
Definition fetched `{!GitHubStream} (s : stream) (context : option dict)
    : list dict * list event :=
  (base_get_records (stream_name s) context, [Fetch (stream_name s) context]).

(** [get_records] of each class: the three overrides, and the inherited
    method for the two classes that do not override it. *)
Definition get_records `{!GitHubStream} (s : stream) (context : option dict)
    : list dict * list event :=
  match s with
  | Events => EventsStream.get_records context
  | IssueComments => IssueCommentsStream.get_records context
  | IssueEvents => IssueEventsStream.get_records context
  | Repositories | Issues => fetched s context
  end.

(** The context key each overriding [get_records] reads. *)
Definition skip_counter (s : stream) : option string :=
  match s with
  | Events | IssueEvents => Some "events"
  | IssueComments => Some "comments"
  | Repositories | Issues => None
  end.

(** No request loop ran. *)
Definition no_fetch (trace : list event) : Prop :=
  ∀ name context, Fetch name context ∉ trace.

(** A stand-in for the inherited methods, to run the streams on examples:
    the JSONPath of search mode is read as the SDK reads it (every element
    of [items]), and the request loop yields one record. *)
Definition example_base : GitHubStream := {|
  rest_parse_response jsonpath body :=
    if bool_decide (jsonpath = "$.items[*]") then
      match body with
      | VObj d =>
          match d !! "items" with
          | Some (VList l) => l
          | _ => []
          end
      | _ => []
      end
    else [];
  base_get_records name context := [ {[ "id" := VInt 1 ]} ];
|}.

(** ** Contexts handed down the stream graph *)

(** The contexts that reach the descendants of one repository record
    [root]: the one the root stream builds from it, and every context the
    issues stream hands back after extending such a context with an issue
    record. *)
Inductive propagated (root : dict) : dict → Prop :=
  | propagated_root (parent : option dict) (c : dict) :
      RepositoryStream.get_child_context root parent = Ok c →
      propagated root c
  | propagated_issue (issue c c' : dict) :
      propagated root c →
      (IssuesStream.get_child_context issue (Some c)).1 = Ok c' →
      propagated root c'.

(** [record["owner"]["login"]]. *)
Definition owner_login (record : dict) : result value :=
  owner ← Py.dict_getitem record "owner"; Py.getitem owner "login".

(** A repository record, cut down to the fields the propagators read. *)
Definition example_repository : dict :=
  {[ "name" := VStr "hello-world";
     "owner" := VObj {[ "login" := VStr "octo" ]} ]}.

(** An issue record, cut down likewise. *)
Definition example_issue : dict :=
  {[ "number" := VInt 7; "comments" := VInt 0 ]}.

(** ** Replication state *)

(** The [replication_key] attribute of each class, the record field that
    orders the records. The root stream declares none. *)
Definition replication_key (s : stream) : option string :=
  match s with
  | Repositories => None
  | Events => Some EventsStream.replication_key
  | Issues => Some IssuesStream.replication_key
  | IssueComments => Some IssueCommentsStream.replication_key
  | IssueEvents => Some IssueEventsStream.replication_key
  end.

(** The [state_partitioning_keys] attribute of each class, the context
    keys that name a partition of the state. The root stream declares
    none. *)
Definition state_partitioning_keys (s : stream) : option (list string) :=
  match s with
  | Repositories => None
  | Events => Some EventsStream.state_partitioning_keys
  | Issues => Some IssuesStream.state_partitioning_keys
  | IssueComments => Some IssueCommentsStream.state_partitioning_keys
  | IssueEvents => Some IssueEventsStream.state_partitioning_keys
  end.

Module ReplicationStateTracker.

(** Modelled from the spec: the tracker of section 4.5. The code that
    keeps the bookmarks is inherited from the base classes
    ([tap_github/client.py] and the SDK) and is not in [streams.py], which
    only declares the replication key and the partition keys of each
    stream. A partition of a stream's state is named by the context's
    values at the stream's partition keys. *)
Definition partition : Type := list (option value).

(** Modelled from the spec: the partition a context belongs to, for the
    absent tracker. *)
Definition partition_of (keys : list string) (context : dict) : partition :=
  (λ k, context !! k) <$> keys.

(** Modelled from the spec: the bookmarks the absent tracker keeps for
    one stream, for each partition the greatest replication-key value
    seen, if any. The values are the timestamps of the records, strings
    that Python orders character by character. *)
Abbreviation bookmarks := (partition → option string).

(** Modelled from the spec: one step of the absent tracker. After a
    record of stream [s] fetched under [context], the record's value at
    the replication key is compared with the bookmark of the record's
    partition, and the bookmark is raised when the value is greater (or
    when there is no bookmark yet). A stream without a replication key,
    or a record without a timestamp at the key, changes nothing. *)
Definition observe (s : stream) (context record : dict) (b : bookmarks)
    : bookmarks :=
  match replication_key s, state_partitioning_keys s with
  | Some key, Some keys =>
      match record !! key with
      | Some (VStr new) =>
          let p := partition_of keys context in
          match b p with
          | Some old => if String.ltb old new then <[p := Some new]> b else b
          | None => <[p := Some new]> b
          end
      | _ => b
      end
  | _, _ => b
  end.

(** Modelled from the spec: the absent tracker over a run of
    observations, each a context and a record. *)
Definition observe_all (s : stream) (obs : list (dict * dict)) (b : bookmarks)
    : bookmarks :=
  foldl (λ b o, observe s o.1 o.2 b) b obs.

(** Modelled from the spec: the order in which bookmarks "never
    decrease"; no bookmark yet is below every bookmark. *)
Definition bookmark_le (x y : option string) : Prop :=
  match x, y with
  | None, _ => True
  | Some a, Some b => String.leb a b = true
  | Some _, None => False
  end.

End ReplicationStateTracker.

(** ** The result ceiling of search mode *)

Module SearchPagination.

(** Modelled from the spec: the ceiling of section 4.2 (c). The page loop
    is inherited from [tap_github/client.py] and is not in [streams.py],
    which only declares [MAX_PER_PAGE] and [MAX_RESULTS_LIMIT]. One page
    of search results as the upstream answers it: the total it reports,
    the matches of the page, and whether it announces a next page. *)
Record search_response : Type := {
  total_count : Z;
  items : list value;
  has_next : bool;
}.

(** Modelled from the spec: the ten pages of the absent page loop, the
    limit on results over the page size. *)
Definition max_pages : nat :=
  Z.to_nat (RepositoryStream.MAX_RESULTS_LIMIT / RepositoryStream.MAX_PER_PAGE).

(** Modelled from the spec: the absent page loop. Pages are asked for one
    after the other from [page] on, as long as the upstream announces a
    next one and at most [remaining] times; the requests made are given
    back with their answers. *)
Fixpoint search_pages (upstream : nat → search_response) (page remaining : nat)
    : list (nat * search_response) :=
  match remaining with
  | O => []
  | S remaining' =>
      let response := upstream page in
      (page, response) ::
        (if has_next response
         then search_pages upstream (S page) remaining'
         else [])
  end.

(** Modelled from the spec: the requests of the absent page loop for one
    search partition, from page 1 and at most [max_pages] of them. *)
Definition requests (upstream : nat → search_response)
    : list (nat * search_response) :=
  search_pages upstream 1 max_pages.

(** Modelled from the spec: the records the root stream yields for the
    partition through the absent page loop. *)
Definition records (upstream : nat → search_response) : list value :=
  concat ((λ r, items r.2) <$> requests upstream).

End SearchPagination.

(** An upstream that reports 5000 matches and always has a full next
    page. *)
Definition example_upstream (page : nat) : SearchPagination.search_response :=
  {| SearchPagination.total_count := 5000;
     SearchPagination.items := replicate 100 (VInt (Z.of_nat page));
     SearchPagination.has_next := true |}.

(** ** The stream graph and the schemas *)

(** The [parent_stream_type] attribute of each class: the four child
    streams all name the root stream, which has no parent. *)
Definition parent_stream_type (s : stream) : option stream :=
  match s with
  | Repositories => None
  | Events | Issues | IssueComments | IssueEvents => Some Repositories
  end.

(** The [primary_keys] attribute of each class; the root stream declares
    none. *)
Definition primary_keys (s : stream) : option (list string) :=
  match s with
  | Repositories => None
  | Events => Some EventsStream.primary_keys
  | Issues => Some IssuesStream.primary_keys
  | IssueComments => Some IssueCommentsStream.primary_keys
  | IssueEvents => Some IssueEventsStream.primary_keys
  end.

(** The declared properties of each class. *)
Definition schema (s : stream) : list (string * jsontype) :=
  match s with
  | Repositories => RepositoryStream.schema
  | Events => EventsStream.schema
  | Issues => IssuesStream.schema
  | IssueComments => IssueCommentsStream.schema
  | IssueEvents => IssueEventsStream.schema
  end.

(** The types a property list declares for the name [k], in order. *)
Definition declarations (k : string) (properties : list (string * jsontype))
    : list jsontype :=
  (filter (λ p, p.1 = k) properties).*2.

(** The names a property list declares. *)
Definition declared (properties : list (string * jsontype)) : gset string :=
  list_to_set properties.*1.

(** [post_process] of the three classes that define it. *)
Definition post_process `{!PythonRuntime} (s : stream)
    : option (dict → option dict → result dict * dict) :=
  match s with
  | Events => Some EventsStream.post_process
  | IssueComments => Some (@IssueCommentsStream.post_process _)
  | IssueEvents => Some (@IssueEventsStream.post_process _)
  | Repositories | Issues => None
  end.

(** What [v == 0] holds of: the integer zero, [False], and the two
    floating-point zeros. *)
Definition zero_like (v : value) : Prop :=
  v = VInt 0 ∨ v = VBool false ∨ ∃ sign, v = VFloat (S754_zero sign).

(** A stand-in for the interpreter, to run the streams on examples: it
    reads no string outside the common core. *)
Definition example_runtime : PythonRuntime := {|
  runtime_int_of_str s := Raise ValueError;
|}.

(** A stand-in for the inherited request members, to run the streams on
    examples: one page-size parameter, one header. *)
Definition example_request : GitHubRequest := {|
  base_get_url_params context next_page_token := {[ "per_page" := VInt 100 ]};
  base_http_headers := {[ "User-Agent" := VStr "tap-github" ]};
|}.

(** * Properties *)

(** ** Facts about the Python operations *)

Section mapM_result.
Context {A B : Type} (f : A → result B).

Lemma mapM_result_Ok (l : list A) (k : list B) :
  Forall2 (λ x y, f x = Ok y) l k → mapM f l = Ok k.
Proof.
  induction 1 as [|x y l k Hx _ IH]; [done|].
  cbn. rewrite Hx. cbn. rewrite IH. done.
Qed.

Lemma mapM_result_Raise (l : list A) (e : exn) :
  Forall (λ x, returns (f x) ∨ f x = Raise e) l →
  Exists (λ x, f x = Raise e) l →
  mapM f l = Raise e.
Proof.
  induction 1 as [|x l Hx _ IH]; intros Hex.
  - by apply Exists_nil in Hex.
  - cbn. destruct Hx as [[y Hy]|Hx].
    + rewrite Hy. cbn. apply Exists_cons in Hex as [Hex|Hex]; [congruence|].
      by rewrite (IH Hex).
    + by rewrite Hx.
Qed.

End mapM_result.

Lemma contains_Some (d : dict) (k : string) (v : value) :
  d !! k = Some v → Py.contains d k = true.
Proof. intros H. unfold Py.contains. rewrite H. by apply bool_decide_eq_true. Qed.

Lemma contains_None (d : dict) (k : string) :
  d !! k = None → Py.contains d k = false.
Proof.
  intros H. unfold Py.contains. rewrite H. apply bool_decide_eq_false.
  by intros [? ?].
Qed.

Lemma split_nonempty sep s : Py.split sep s ≠ [].
Proof.
  destruct s as [|c s]; cbn; [done|].
  case_bool_decide; [done|]. by destruct (Py.split sep s).
Qed.

Lemma split_no_sep sep s : sep ∉ chars s → Py.split sep s = [s].
Proof.
  induction s as [|c s IH]; cbn; [done|]. intros Hni.
  apply not_elem_of_cons in Hni as [Hne Hni].
  rewrite bool_decide_eq_false_2 by done. by rewrite IH.
Qed.

Lemma split_sep sep s :
  sep ∈ chars s → ∃ a b rest, Py.split sep s = a :: b :: rest.
Proof.
  induction s as [|c s IH]; cbn.
  - intros H. by apply elem_of_nil in H.
  - intros Hin. case_bool_decide as Hc.
    + pose proof (split_nonempty sep s).
      destruct (Py.split sep s) as [|b rest]; [done|]. eauto.
    + apply elem_of_cons in Hin as [?|Hin]; [congruence|].
      destruct (IH Hin) as (a & b & rest & ->). eauto.
Qed.

(** [split] is the decomposition of the string at its separators:
    joining the segments gives the string back, and no segment contains
    the separator. *)
Lemma join_split sep s : join sep (Py.split sep s) = s.
Proof.
  induction s as [|c s IH]; cbn; [done|].
  pose proof (split_nonempty sep s) as Hne.
  case_bool_decide as Hc.
  - subst c. destruct (Py.split sep s); [done|]. cbn in *. by rewrite IH.
  - destruct (Py.split sep s) as [|a [|b l]]; [done| |]; cbn in *; by rewrite <-IH.
Qed.

Lemma split_segments sep s : Forall (λ seg, sep ∉ chars seg) (Py.split sep s).
Proof.
  induction s as [|c s IH]; cbn.
  - repeat constructor. apply not_elem_of_nil.
  - case_bool_decide as Hc.
    + constructor; [apply not_elem_of_nil|done].
    + destruct (Py.split sep s) as [|a l]; cbn.
      * repeat constructor. apply not_elem_of_cons. split; [done|apply not_elem_of_nil].
      * apply Forall_cons in IH as [Ha Hl]. constructor; [|done].
        cbn. apply not_elem_of_cons. done.
Qed.

(** *** Reading a decimal number *)











(** The reading of the core on a few strings: signs, leading zeros and
    single underscores are taken; the six white-space characters are
    stripped from both ends and no other control character is; a string
    without digits, white space inside, a misplaced underscore, or
    anything that is not a decimal digit is refused. *)
Example int_of_ascii_examples :
  Forall (λ x, Py.int_of_ascii x.1 = x.2)
    [ ("42", Ok 42); ("+42", Ok 42); ("-42", Ok (-42)); ("0042", Ok 42);
      ("4_2", Ok 42); (" 42 ", Ok 42);
      (String "009" (String "010" (String "011" "42")), Ok 42);
      ("42" +:+ String "012" (String "013" " "), Ok 42);
      (String "028" "42", Raise ValueError);
      (String "029" "42", Raise ValueError);
      (String "030" "42", Raise ValueError);
      ("42" +:+ String "031" "", Raise ValueError);
      (String "000" "42", Raise ValueError);
      ("", Raise ValueError); (" ", Raise ValueError);
      ("+", Raise ValueError); ("+-42", Raise ValueError);
      ("- 42", Raise ValueError); ("4 2", Raise ValueError);
      ("_42", Raise ValueError); ("42_", Raise ValueError);
      ("4__2", Raise ValueError); ("0x2A", Raise ValueError);
      ("42.0", Raise ValueError); ("4e2", Raise ValueError) ].
Proof. repeat constructor. Qed.



Lemma split_app_sep (sep : ascii) (a b : string) :
  Py.split sep (a +:+ String sep b)
    = (Py.split sep a ++ Py.split sep b)%list.
Proof.
  induction a as [|c a IH].
  - change ("" +:+ String sep b) with (String sep b). cbn.
    by rewrite bool_decide_eq_true_2.
  - change (String c a +:+ String sep b) with (String c (a +:+ String sep b)).
    cbn. rewrite IH. case_bool_decide; [done|].
    pose proof (split_nonempty sep a). by destruct (Py.split sep a).
Qed.

Lemma split_last_segment (sep : ascii) (a b : string) :
  sep ∉ chars b → last (Py.split sep (a +:+ String sep b)) = Some b.
Proof.
  intros Hb. rewrite split_app_sep, (split_no_sep _ _ Hb).
  by rewrite last_snoc.
Qed.

(** ** The partitions of the root stream *)

Lemma repo_partition_no_slash (s : string) :
  "/"%char ∉ chars s → RepositoryStream.repo_partition (VStr s) = Raise IndexError.
Proof.
  intros Hs. unfold RepositoryStream.repo_partition. cbn.
  by rewrite (split_no_sep _ _ Hs).
Qed.

Lemma repo_partition_slash (s : string) :
  "/"%char ∈ chars s →
  ∃ p, RepositoryStream.repo_partition (VStr s) = Ok p ∧ first_two_segments s p.
Proof.
  intros Hs. destruct (split_sep _ _ Hs) as (org & repo & rest & Hsplit).
  exists {[ "org" := VStr org; "repo" := VStr repo ]}. split.
  - unfold RepositoryStream.repo_partition. cbn. by rewrite Hsplit.
  - by exists org, repo, rest.
Qed.

Lemma partitions_repositories (config : dict) (repositories : value) :
  config !! "searches" = None →
  config !! "repositories" = Some repositories →
  RepositoryStream.partitions config =
    rs ← Py.iter repositories;
    Some <$> mapM RepositoryStream.repo_partition rs.
Proof.
  intros Hs Hr. unfold RepositoryStream.partitions.
  rewrite (contains_None _ _ Hs), (contains_Some _ _ _ Hr).
  unfold Py.dict_getitem. by rewrite Hr.
Qed.

Lemma partitions_repositories_Ok (config : dict) (strs : list string) :
  config !! "searches" = None →
  config !! "repositories" = Some (VList (VStr <$> strs)) →
  Forall (λ s, "/"%char ∈ chars s) strs →
  ∃ ps, RepositoryStream.partitions config = Ok (Some ps) ∧
        Forall2 first_two_segments strs ps.
Proof.
  intros Hs Hr Hall. rewrite (partitions_repositories _ _ Hs Hr). cbn.
  assert (∃ ps, Forall2 (λ x p, RepositoryStream.repo_partition x = Ok p)
                  (VStr <$> strs) ps ∧ Forall2 first_two_segments strs ps)
    as (ps & Hps & Hft).
  { clear Hs Hr. induction Hall as [|s strs Hslash _ IH].
    - exists []. split; constructor.
    - destruct IH as (ps & Hps & Hft).
      destruct (repo_partition_slash s Hslash) as (p & Hp & Hpft).
      exists (p :: ps). split; by constructor. }
  exists ps. split; [|done]. by rewrite (mapM_result_Ok _ _ _ Hps).
Qed.

(** Closes a decidable goal by evaluating its decision procedure. *)
Ltac by_compute :=
  match goal with
  | |- ?P => apply (bool_decide_unpack P); vm_compute; exact I
  end.

(** C1, as the code has it: for a configuration without [searches] whose
    [repositories] is a list of strings, [partitions] splits each string
    on ['/'] and takes the first two segments as [org] and [repo]. A
    string without any ['/'] makes the computation raise ([IndexError]);
    when every string has at least one ['/'] the partitions are returned,
    one per string, each made of the string's first two segments, whatever
    follows them and whether or not they are empty. *)
Theorem partitions_repositories_by_slash (config : dict) (strs : list string) :
  config !! "searches" = None →
  config !! "repositories" = Some (VList (VStr <$> strs)) →
  (Exists (λ s, "/"%char ∉ chars s) strs →
     RepositoryStream.partitions config = Raise IndexError) ∧
  (Forall (λ s, "/"%char ∈ chars s) strs →
     ∃ ps, RepositoryStream.partitions config = Ok (Some ps) ∧
           Forall2 first_two_segments strs ps).
Proof.
  intros Hs Hr. split; [|by apply partitions_repositories_Ok].
  intros Hex. rewrite (partitions_repositories _ _ Hs Hr). cbn.
  rewrite (mapM_result_Raise _ _ IndexError); [done| |].
  - apply Forall_fmap, Forall_forall. intros s _. cbn.
    destruct (decide ("/"%char ∈ chars s)) as [Hin|Hni].
    + left. destruct (repo_partition_slash s Hin) as (p & Hp & _). by exists p.
    + right. by apply repo_partition_no_slash.
  - apply Exists_fmap. eapply Exists_impl; [exact Hex|].
    intros s Hni. by apply repo_partition_no_slash.
Qed.

Lemma partitions_repositories_by_slash_witness :
  ∃ ps, RepositoryStream.partitions
          {[ "repositories" := VList [VStr "octo/hello-world"; VStr "a/b"] ]}
        = Ok (Some ps) ∧
        Forall2 first_two_segments ["octo/hello-world"; "a/b"] ps.
Proof.
  apply (partitions_repositories_by_slash
           {[ "repositories" := VList [VStr "octo/hello-world"; VStr "a/b"] ]}
           ["octo/hello-world"; "a/b"]).
  - vm_compute. reflexivity.
  - vm_compute. reflexivity.
  - by_compute.
Defined.

(** C1 as stated fails: ["a/b/c"] has three segments and ["/repo"] an
    empty one, and for both a partition is produced and nothing is
    raised. *)
Lemma partitions_accepts_malformed_repositories :
  ¬ two_nonempty_segments "a/b/c" ∧
  RepositoryStream.partitions {[ "repositories" := VList [VStr "a/b/c"] ]}
    = Ok (Some [ {[ "org" := VStr "a"; "repo" := VStr "b" ]} ]) ∧
  ¬ two_nonempty_segments "/repo" ∧
  RepositoryStream.partitions {[ "repositories" := VList [VStr "/repo"] ]}
    = Ok (Some [ {[ "org" := VStr ""; "repo" := VStr "repo" ]} ]).
Proof.
  split; [|split; [|split]].
  - intros (org & repo & Hsplit & _). vm_compute in Hsplit. discriminate.
  - vm_compute. reflexivity.
  - intros (org & repo & Hsplit & Horg & _). vm_compute in Hsplit.
    injection Hsplit as <- _. by apply Horg.
  - vm_compute. reflexivity.
Qed.

Lemma search_partition_entry (s : value) (p : dict) :
  search_entry s p → RepositoryStream.search_partition s = Ok p.
Proof.
  intros (d & name & query & -> & Hn & Hq & ->).
  unfold RepositoryStream.search_partition. cbn. unfold Py.dict_getitem.
  rewrite Hn. cbn. by rewrite Hq.
Qed.

(** C5: [partitions] looks at [searches] first. When it is configured (a
    list of entries with a name and a query) the result is the list of
    search partitions in configuration order, and [repositories] plays
    no part; otherwise, when [repositories] is configured (strings with a
    ['/']), it is the list of [{org, repo}] partitions in configuration
    order; when neither is configured it is [None]. *)
Theorem partitions_precedence (config : dict) :
  (∀ ss ps,
     config !! "searches" = Some (VList ss) →
     Forall2 search_entry ss ps →
     RepositoryStream.partitions config = Ok (Some ps)) ∧
  (∀ repositories,
     is_Some (config !! "searches") →
     RepositoryStream.partitions (<["repositories" := repositories]> config)
       = RepositoryStream.partitions config ∧
     RepositoryStream.partitions (delete "repositories" config)
       = RepositoryStream.partitions config) ∧
  (∀ strs,
     config !! "searches" = None →
     config !! "repositories" = Some (VList (VStr <$> strs)) →
     Forall (λ s, "/"%char ∈ chars s) strs →
     ∃ ps, RepositoryStream.partitions config = Ok (Some ps) ∧
           Forall2 first_two_segments strs ps) ∧
  (config !! "searches" = None →
   config !! "repositories" = None →
   RepositoryStream.partitions config = Ok None).
Proof.
  split; [|split; [|split]].
  - intros ss ps Hs Hall. unfold RepositoryStream.partitions.
    rewrite (contains_Some _ _ _ Hs). unfold Py.dict_getitem. rewrite Hs. cbn.
    rewrite (mapM_result_Ok _ ss ps); [done|].
    eapply Forall2_impl; [exact Hall|]. apply search_partition_entry.
  - intros repositories [v Hs]. unfold RepositoryStream.partitions.
    assert (<["repositories" := repositories]> config !! "searches" = Some v)
      as Hins by (by rewrite lookup_insert_ne).
    assert (delete "repositories" config !! "searches" = Some v)
      as Hdel by (by rewrite lookup_delete_ne).
    rewrite (contains_Some _ _ _ Hs), (contains_Some _ _ _ Hins),
      (contains_Some _ _ _ Hdel).
    unfold Py.dict_getitem. by rewrite Hs, Hins, Hdel.
  - intros strs. apply partitions_repositories_Ok.
  - intros Hs Hr. unfold RepositoryStream.partitions.
    by rewrite (contains_None _ _ Hs), (contains_None _ _ Hr).
Qed.

Lemma partitions_precedence_witness :
  RepositoryStream.partitions
    {[ "searches" := VList [VObj {[ "name" := VStr "tap"; "query" := VStr "tap- in:name" ]}];
       "repositories" := VList [VStr "octo/hello-world"] ]}
  = Ok (Some [ {[ "search_name" := VStr "tap"; "search_query" := VStr "tap- in:name" ]} ]).
Proof.
  apply (proj1 (partitions_precedence _)
           [VObj {[ "name" := VStr "tap"; "query" := VStr "tap- in:name" ]}]).
  - vm_compute. reflexivity.
  - repeat constructor.
    exists {[ "name" := VStr "tap"; "query" := VStr "tap- in:name" ]},
      (VStr "tap"), (VStr "tap- in:name").
    repeat split; vm_compute; reflexivity.
Defined.

(** ** The skip test of the child streams *)

Lemma dict_truthy_lookup (c : dict) (k : string) (v : value) :
  c !! k = Some v → Py.dict_truthy c = true.
Proof.
  intros Hk. unfold Py.dict_truthy. rewrite bool_decide_eq_false_2; [done|].
  intros ->. by rewrite lookup_empty in Hk.
Qed.

Lemma get_records_skip_test `{!GitHubStream} (s : stream) (key : string) (c : dict) :
  skip_counter s = Some key →
  get_records s (Some c) =
    if Py.dict_truthy c && Py.eq_zero (Py.dict_get c key)
    then ([], [LogDebug ("No " +:+ key +:+ " detected. Skipping '"
                         +:+ stream_name s +:+ "' sync.")])
    else fetched s (Some c).
Proof. destruct s; intros [= <-]; reflexivity. Qed.

Lemma get_records_no_context `{!GitHubStream} (s : stream) :
  get_records s None = fetched s None.
Proof. by destruct s. Qed.

Lemma get_records_counter_absent `{!GitHubStream}
    (s : stream) (key : string) (c : dict) :
  skip_counter s = Some key → c !! key = None →
  get_records s (Some c) = fetched s (Some c).
Proof.
  intros Hkey Hnone. rewrite (get_records_skip_test s key c Hkey).
  unfold Py.dict_get. rewrite Hnone. cbn. by rewrite andb_false_r.
Qed.

(** C2: for each of the three streams with a skip test and every context that is a
    dict: when the counter key is there and is [0], no record is returned
    and no request loop runs (a debug line is all that happens); when the
    key is absent, or its value is not equal to [0] (any integer other
    than [0] in particular), the inherited request loop is what runs.
    Without a context the request loop runs as well. *)
Theorem skip_on_zero_counter `{!GitHubStream} (s : stream) (key : string) (c : dict) :
  skip_counter s = Some key →
  (c !! key = Some (VInt 0) →
     (get_records s (Some c)).1 = [] ∧ no_fetch (get_records s (Some c)).2) ∧
  (c !! key = None → get_records s (Some c) = fetched s (Some c)) ∧
  (∀ v, c !! key = Some v → Py.eq_zero v = false →
     get_records s (Some c) = fetched s (Some c)) ∧
  (∀ n, c !! key = Some (VInt n) → n ≠ 0 →
     get_records s (Some c) = fetched s (Some c)) ∧
  get_records s None = fetched s None.
Proof.
  intros Hkey. rewrite (get_records_skip_test s key c Hkey).
  assert (∀ v, c !! key = Some v → Py.eq_zero v = false →
            (if Py.dict_truthy c && Py.eq_zero (Py.dict_get c key)
             then ([], [LogDebug ("No " +:+ key +:+ " detected. Skipping '"
                                  +:+ stream_name s +:+ "' sync.")])
             else fetched s (Some c)) = fetched s (Some c)) as Hnonzero.
  { intros v Hv Hz. unfold Py.dict_get. rewrite Hv. cbn. rewrite Hz.
    by rewrite andb_false_r. }
  split; [|split; [|split; [|split]]].
  - intros Hzero. unfold Py.dict_get.
    rewrite (dict_truthy_lookup _ _ _ Hzero), Hzero. cbn. split; [done|].
    intros name context Hin. apply list_elem_of_singleton in Hin. discriminate.
  - intros Hnone. unfold Py.dict_get. rewrite Hnone. cbn.
    by rewrite andb_false_r.
  - exact Hnonzero.
  - intros n Hn Hne. apply (Hnonzero _ Hn). cbn.
    by apply bool_decide_eq_false.
  - apply get_records_no_context.
Qed.

Lemma skip_on_zero_counter_witness :
  ((@get_records example_base IssueComments
      (Some {[ "org" := VStr "octo"; "comments" := VInt 0 ]})).1 = [] ∧
   no_fetch (@get_records example_base IssueComments
      (Some {[ "org" := VStr "octo"; "comments" := VInt 0 ]})).2) ∧
  @get_records example_base IssueComments
      (Some {[ "org" := VStr "octo"; "comments" := VInt 5 ]})
  = @fetched example_base IssueComments
      (Some {[ "org" := VStr "octo"; "comments" := VInt 5 ]}).
Proof.
  split.
  - apply (proj1 (@skip_on_zero_counter example_base IssueComments "comments"
                    {[ "org" := VStr "octo"; "comments" := VInt 0 ]} eq_refl)).
    vm_compute. reflexivity.
  - apply (proj1 (proj2 (proj2 (proj2
             (@skip_on_zero_counter example_base IssueComments "comments"
                {[ "org" := VStr "octo"; "comments" := VInt 5 ]} eq_refl))))
             5).
    + vm_compute. reflexivity.
    + lia.
Defined.

(** ** Context propagation *)

Lemma root_child_context_inv (root : dict) (parent : option dict) (c : dict) :
  RepositoryStream.get_child_context root parent = Ok c →
  ∃ login name,
    owner_login root = Ok login ∧ root !! "name" = Some name ∧
    c = {[ "org" := login; "repo" := name ]}.
Proof.
  unfold RepositoryStream.get_child_context, owner_login, Py.dict_getitem.
  destruct (root !! "owner") as [owner|]; cbn; [|done].
  destruct (Py.getitem owner "login") as [login|]; cbn; [|done].
  destruct (root !! "name") as [name|]; cbn; [|done].
  intros [= <-]. by exists login, name.
Qed.

Lemma root_child_context_Ok (root : dict) (parent : option dict)
    (login name : value) :
  owner_login root = Ok login → root !! "name" = Some name →
  RepositoryStream.get_child_context root parent
    = Ok {[ "org" := login; "repo" := name ]}.
Proof.
  unfold RepositoryStream.get_child_context, owner_login, Py.dict_getitem.
  destruct (root !! "owner") as [owner|]; cbn; [|done].
  intros -> ->. done.
Qed.

Lemma issue_child_context_Ok (issue c : dict) (number comments : value) :
  issue !! "number" = Some number → issue !! "comments" = Some comments →
  IssuesStream.get_child_context issue (Some c) =
    (Ok (<["comments" := comments]> (<["issue_number" := number]> c)),
     Some (<["comments" := comments]> (<["issue_number" := number]> c))).
Proof.
  intros Hn Hc. unfold IssuesStream.get_child_context, on, Py.dict_getitem.
  cbn. unfold lift, mbind, mut_bind. by rewrite Hn, Hc.
Qed.

Lemma issue_child_context_inv (issue c c' : dict) :
  (IssuesStream.get_child_context issue (Some c)).1 = Ok c' →
  ∃ number comments,
    issue !! "number" = Some number ∧ issue !! "comments" = Some comments ∧
    c' = <["comments" := comments]> (<["issue_number" := number]> c).
Proof.
  destruct (issue !! "number") as [number|] eqn:Hn;
    destruct (issue !! "comments") as [comments|] eqn:Hc.
  - rewrite (issue_child_context_Ok _ _ _ _ Hn Hc). cbn.
    intros [= <-]. by exists number, comments.
  - unfold IssuesStream.get_child_context, on, Py.dict_getitem.
    cbn. unfold lift, mbind, mut_bind. rewrite Hn, Hc. done.
  - unfold IssuesStream.get_child_context, on, Py.dict_getitem.
    cbn. unfold lift, mbind, mut_bind. rewrite Hn. done.
  - unfold IssuesStream.get_child_context, on, Py.dict_getitem.
    cbn. unfold lift, mbind, mut_bind. rewrite Hn. done.
Qed.

(** Every propagated context carries the root's [org] and [repo], and
    only the four keys the two hops write. *)
Lemma propagated_inv (root c : dict) :
  propagated root c →
  ∃ login name,
    owner_login root = Ok login ∧ root !! "name" = Some name ∧
    c !! "org" = Some login ∧ c !! "repo" = Some name ∧
    dom c ⊆ {[ "org"; "repo"; "issue_number"; "comments" ]}.
Proof.
  induction 1 as [parent c Hroot|issue c c' _ IH Hhop].
  - apply root_child_context_inv in Hroot as (login & name & Hl & Hn & ->).
    exists login, name. repeat split; [done..|].
    rewrite dom_insert_L, dom_singleton_L. set_solver.
  - destruct IH as (login & name & Hl & Hn & Horg & Hrepo & Hdom).
    apply issue_child_context_inv in Hhop as (number & comments & _ & _ & ->).
    exists login, name. repeat split; [done..| | |].
    + by rewrite !lookup_insert_ne.
    + by rewrite !lookup_insert_ne.
    + rewrite !dom_insert_L. set_solver.
Qed.

(** C3: the root hop sets [org] to the record's [owner.login] and [repo]
    to its [name]; a later hop through the issues stream, given a context
    and an issue record with a number and a comment count, hands back that
    context with [issue_number] and [comments] set and every other key,
    [org] and [repo] among them, as it was, so that no key is lost; and
    after any number of such hops [org] and [repo] are still what the root
    hop set. Without a context the issues hop raises. *)
Theorem context_propagation_keeps_root_keys (root : dict) :
  (∀ parent login name,
     owner_login root = Ok login → root !! "name" = Some name →
     ∃ c, RepositoryStream.get_child_context root parent = Ok c ∧
          c !! "org" = Some login ∧ c !! "repo" = Some name) ∧
  (∀ issue c number comments,
     issue !! "number" = Some number → issue !! "comments" = Some comments →
     ∃ c', IssuesStream.get_child_context issue (Some c) = (Ok c', Some c') ∧
           c' !! "org" = c !! "org" ∧ c' !! "repo" = c !! "repo" ∧
           c' !! "issue_number" = Some number ∧
           c' !! "comments" = Some comments ∧
           (∀ k, k ≠ "issue_number" → k ≠ "comments" → c' !! k = c !! k) ∧
           dom c ⊆ dom c') ∧
  (∀ issue, IssuesStream.get_child_context issue None
            = (Raise ValueError, None)) ∧
  (∀ c, propagated root c →
     ∃ login name,
       owner_login root = Ok login ∧ root !! "name" = Some name ∧
       c !! "org" = Some login ∧ c !! "repo" = Some name).
Proof.
  split; [|split; [|split; [done|]]].
  - intros parent login name Hl Hn.
    exists {[ "org" := login; "repo" := name ]}.
    split; [by apply root_child_context_Ok|]. done.
  - intros issue c number comments Hn Hc.
    exists (<["comments" := comments]> (<["issue_number" := number]> c)).
    split; [by apply issue_child_context_Ok|].
    repeat split.
    + by rewrite !lookup_insert_ne.
    + by rewrite !lookup_insert_ne.
    + by rewrite lookup_insert_ne, lookup_insert_eq.
    + by rewrite lookup_insert_eq.
    + intros k Hk1 Hk2. by rewrite !lookup_insert_ne.
    + rewrite !dom_insert_L. set_solver.
  - intros c Hc.
    destruct (propagated_inv _ _ Hc) as (login & name & ? & ? & ? & ? & _).
    by exists login, name.
Qed.

(** C10: a context built by the two propagators has exactly the keys
    [org] and [repo] and possibly [issue_number] and [comments]; it has
    no [events] key, so the events stream and the issue events stream,
    run on it, never take the skip branch: the inherited request loop
    runs. *)
Theorem propagated_context_never_skips_events `{!GitHubStream} (root c : dict) :
  propagated root c →
  {[ "org"; "repo" ]} ⊆ dom c ∧
  dom c ⊆ {[ "org"; "repo"; "issue_number"; "comments" ]} ∧
  c !! "events" = None ∧
  EventsStream.get_records (Some c) = fetched Events (Some c) ∧
  IssueEventsStream.get_records (Some c) = fetched IssueEvents (Some c).
Proof.
  intros Hc.
  destruct (propagated_inv _ _ Hc) as (login & name & _ & _ & Horg & Hrepo & Hdom).
  assert (c !! "events" = None) as Hev.
  { apply not_elem_of_dom. intros Hin. apply Hdom in Hin. set_solver. }
  split; [|split; [done|split; [done|]]].
  - apply elem_of_dom_2 in Horg, Hrepo. set_solver.
  - split.
    + apply (get_records_counter_absent Events "events" c eq_refl Hev).
    + apply (get_records_counter_absent IssueEvents "events" c eq_refl Hev).
Qed.

Lemma context_propagation_keeps_root_keys_witness :
  ∃ login name,
    owner_login example_repository = Ok login ∧
    example_repository !! "name" = Some name ∧
    ({[ "org" := VStr "octo"; "repo" := VStr "hello-world";
        "issue_number" := VInt 7; "comments" := VInt 0 ]} : dict) !! "org"
      = Some login ∧
    ({[ "org" := VStr "octo"; "repo" := VStr "hello-world";
        "issue_number" := VInt 7; "comments" := VInt 0 ]} : dict) !! "repo"
      = Some name.
Proof.
  apply (proj2 (proj2 (proj2
           (context_propagation_keeps_root_keys example_repository)))).
  apply (propagated_issue _ example_issue
           {[ "org" := VStr "octo"; "repo" := VStr "hello-world" ]}).
  - apply (propagated_root _ None). vm_compute. reflexivity.
  - vm_compute. reflexivity.
Defined.

Lemma propagated_context_never_skips_events_witness :
  ({[ "org"; "repo" ]} : gset string)
    ⊆ dom ({[ "org" := VStr "octo"; "repo" := VStr "hello-world" ]} : dict) ∧
  dom ({[ "org" := VStr "octo"; "repo" := VStr "hello-world" ]} : dict)
    ⊆ {[ "org"; "repo"; "issue_number"; "comments" ]} ∧
  ({[ "org" := VStr "octo"; "repo" := VStr "hello-world" ]} : dict) !! "events"
    = None ∧
  @EventsStream.get_records example_base
    (Some {[ "org" := VStr "octo"; "repo" := VStr "hello-world" ]})
  = @fetched example_base Events
      (Some {[ "org" := VStr "octo"; "repo" := VStr "hello-world" ]}) ∧
  @IssueEventsStream.get_records example_base
    (Some {[ "org" := VStr "octo"; "repo" := VStr "hello-world" ]})
  = @fetched example_base IssueEvents
      (Some {[ "org" := VStr "octo"; "repo" := VStr "hello-world" ]}).
Proof.
  apply (@propagated_context_never_skips_events example_base example_repository).
  apply (propagated_root _ None). vm_compute. reflexivity.
Defined.

(** ** The two modes of the root stream *)

(** C4: whether [searches] is configured decides the path, the JSONPath
    and the parsing of the root stream together. With [searches]: the
    search endpoint, the path [$.items[*]], and the inherited parsing
    applied with that path. Without: the templated repository path, and
    the whole body as the one record. *)
Theorem mode_selection `{!GitHubStream} (config : dict) :
  (is_Some (config !! "searches") →
     RepositoryStream.path config = "/search/repositories" ∧
     RepositoryStream.records_jsonpath config = "$.items[*]" ∧
     ∀ body, RepositoryStream.parse_response config body
             = rest_parse_response "$.items[*]" body) ∧
  (config !! "searches" = None →
     RepositoryStream.path config = "/repos/{org}/{repo}" ∧
     ∀ body, RepositoryStream.parse_response config body = [body]).
Proof.
  split.
  - intros [v Hs].
    unfold RepositoryStream.path, RepositoryStream.parse_response,
      RepositoryStream.records_jsonpath.
    by rewrite (contains_Some _ _ _ Hs).
  - intros Hs.
    unfold RepositoryStream.path, RepositoryStream.parse_response.
    by rewrite (contains_None _ _ Hs).
Qed.

Lemma mode_selection_witness :
  (RepositoryStream.path
     {[ "searches" := VList [VObj {[ "name" := VStr "tap"; "query" := VStr "q" ]}] ]}
   = "/search/repositories" ∧
   RepositoryStream.records_jsonpath
     {[ "searches" := VList [VObj {[ "name" := VStr "tap"; "query" := VStr "q" ]}] ]}
   = "$.items[*]" ∧
   ∀ body,
     @RepositoryStream.parse_response example_base
       {[ "searches" := VList [VObj {[ "name" := VStr "tap"; "query" := VStr "q" ]}] ]}
       body
     = @rest_parse_response example_base "$.items[*]" body) ∧
  (RepositoryStream.path {[ "repositories" := VList [VStr "octo/hello-world"] ]}
   = "/repos/{org}/{repo}" ∧
   ∀ body,
     @RepositoryStream.parse_response example_base
       {[ "repositories" := VList [VStr "octo/hello-world"] ]} body
     = [body]).
Proof.
  split.
  - apply (proj1 (@mode_selection example_base _)). by_compute.
  - apply (proj2 (@mode_selection example_base _)). vm_compute. reflexivity.
Defined.

(** ** Record post-processing *)

(** Unfolds a method body down to the operations on the dict. *)
Ltac unfold_mut :=
  unfold on, Py.pop_m, Py.setitem_m, Py.getitem_m, Py.self_m, lift,
    Py.dict_getitem; cbn; unfold mbind, mut_bind; cbn.

Lemma events_post_process_Ok (row : dict) (context : option dict)
    (repo org : value) :
  row !! "repo" = Some repo → row !! "org" = Some org →
  EventsStream.post_process row context =
    (Ok (<["target_org" := org]> (delete "org"
           (<["target_repo" := repo]> (delete "repo" row)))),
     <["target_org" := org]> (delete "org"
           (<["target_repo" := repo]> (delete "repo" row)))).
Proof.
  intros Hrepo Horg. unfold EventsStream.post_process. unfold_mut.
  rewrite Hrepo. cbn.
  by rewrite lookup_insert_ne, lookup_delete_ne, Horg.
Qed.

(** C8: an events record with top-level [repo] and [org] comes back with
    their values under [target_repo] and [target_org], without the keys
    [repo] and [org], and with every other field as it was; when [repo]
    or [org] is missing the call raises [KeyError] and returns no
    record. *)
Theorem events_post_process_renames (row : dict) (context : option dict) :
  (∀ repo org,
     row !! "repo" = Some repo → row !! "org" = Some org →
     ∃ row', EventsStream.post_process row context = (Ok row', row') ∧
       row' !! "target_repo" = Some repo ∧
       row' !! "target_org" = Some org ∧
       row' !! "repo" = None ∧ row' !! "org" = None ∧
       ∀ k, k ≠ "repo" → k ≠ "org" → k ≠ "target_repo" → k ≠ "target_org" →
            row' !! k = row !! k) ∧
  (row !! "repo" = None →
     (EventsStream.post_process row context).1 = Raise (KeyError "repo")) ∧
  (is_Some (row !! "repo") → row !! "org" = None →
     (EventsStream.post_process row context).1 = Raise (KeyError "org")).
Proof.
  split; [|split].
  - intros repo org Hrepo Horg. eexists. split.
    { by apply events_post_process_Ok. }
    repeat split.
    + by rewrite lookup_insert_ne, lookup_delete_ne, lookup_insert_eq.
    + by rewrite lookup_insert_eq.
    + by rewrite lookup_insert_ne, lookup_delete_ne, lookup_insert_ne,
        lookup_delete_eq.
    + by rewrite lookup_insert_ne, lookup_delete_eq.
    + intros k ? ? ? ?.
      by rewrite lookup_insert_ne, lookup_delete_ne, lookup_insert_ne,
        lookup_delete_ne.
  - intros Hrepo. unfold EventsStream.post_process. unfold_mut.
    by rewrite Hrepo.
  - intros [repo Hrepo] Horg. unfold EventsStream.post_process. unfold_mut.
    rewrite Hrepo. cbn. by rewrite lookup_insert_ne, lookup_delete_ne, Horg.
Qed.

Lemma events_post_process_renames_witness :
  ∃ row',
    EventsStream.post_process
      {[ "id" := VStr "1"; "repo" := VObj {[ "name" := VStr "octo/hello-world" ]};
         "org" := VObj {[ "login" := VStr "octo" ]} ]} None
    = (Ok row', row') ∧
    row' !! "target_repo" = Some (VObj {[ "name" := VStr "octo/hello-world" ]}) ∧
    row' !! "target_org" = Some (VObj {[ "login" := VStr "octo" ]}) ∧
    row' !! "repo" = None ∧ row' !! "org" = None ∧
    ∀ k, k ≠ "repo" → k ≠ "org" → k ≠ "target_repo" → k ≠ "target_org" →
         row' !! k =
         ({[ "id" := VStr "1"; "repo" := VObj {[ "name" := VStr "octo/hello-world" ]};
             "org" := VObj {[ "login" := VStr "octo" ]} ]} : dict) !! k.
Proof.
  apply (proj1 (events_post_process_renames _ None)).
  - vm_compute. reflexivity.
  - vm_compute. reflexivity.
Defined.

Lemma list_getitem_last {A} (l : list A) (x : A) :
  last l = Some x → Py.list_getitem l (-1) = Ok x.
Proof.
  intros Hlast. unfold Py.list_getitem.
  assert (l ≠ []) as Hne by (by intros ->).
  assert (0 < length l)%nat by (destruct l; [done|cbn; lia]).
  rewrite (bool_decide_eq_true_2 (-1 < 0)) by lia. cbv zeta.
  rewrite (bool_decide_eq_false_2 (-1 + Z.of_nat (length l) < 0)) by lia.
  rewrite last_lookup in Hlast.
  replace (Z.to_nat (-1 + Z.of_nat (length l))) with (pred (length l)) by lia.
  by rewrite Hlast.
Qed.



(** ** Replication state *)

Lemma ascii_compare_lt_trans (a b c : ascii) :
  Ascii.compare a b = Lt → Ascii.compare b c = Lt → Ascii.compare a c = Lt.
Proof.
  unfold Ascii.compare. rewrite !N.compare_lt_iff. apply N.lt_trans.
Qed.

Lemma string_compare_lt_trans (s1 s2 s3 : string) :
  String.compare s1 s2 = Lt → String.compare s2 s3 = Lt →
  String.compare s1 s3 = Lt.
Proof.
  revert s2 s3. induction s1 as [|c1 s1 IH]; intros [|c2 s2] [|c3 s3];
    cbn; try done.
  destruct (Ascii.compare c1 c2) eqn:H12; [|clear IH|done].
  - apply Ascii.compare_eq_iff in H12 as ->.
    destruct (Ascii.compare c2 c3); [apply IH|done|done].
  - intros _. destruct (Ascii.compare c2 c3) eqn:H23; [| |done].
    + apply Ascii.compare_eq_iff in H23 as ->. by rewrite H12.
    + intros _. by rewrite (ascii_compare_lt_trans _ _ _ H12 H23).
Qed.

Lemma string_compare_refl (s : string) : String.compare s s = Eq.
Proof.
  induction s as [|c s IH]; cbn; [done|].
  unfold Ascii.compare. by rewrite N.compare_refl.
Qed.

Lemma string_leb_refl (s : string) : String.leb s s = true.
Proof. unfold String.leb. by rewrite string_compare_refl. Qed.

Lemma string_ltb_leb (s1 s2 : string) :
  String.ltb s1 s2 = true → String.leb s1 s2 = true.
Proof. unfold String.ltb, String.leb. by destruct (String.compare s1 s2). Qed.

Lemma string_leb_trans (s1 s2 s3 : string) :
  String.leb s1 s2 = true → String.leb s2 s3 = true → String.leb s1 s3 = true.
Proof.
  unfold String.leb.
  destruct (String.compare s1 s2) eqn:H12; [| |done]; intros _.
  - by apply String.compare_eq_iff in H12 as ->.
  - destruct (String.compare s2 s3) eqn:H23; [| |done]; intros _.
    + apply String.compare_eq_iff in H23 as <-. by rewrite H12.
    + by rewrite (string_compare_lt_trans _ _ _ H12 H23).
Qed.

Section bookmark_order.
Import ReplicationStateTracker.

Lemma bookmark_le_refl (x : option string) : bookmark_le x x.
Proof. destruct x; cbn; [apply string_leb_refl|done]. Qed.

Lemma bookmark_le_trans (x y z : option string) :
  bookmark_le x y → bookmark_le y z → bookmark_le x z.
Proof.
  destruct x as [a|], y as [b|], z as [c|]; cbn; try done.
  apply string_leb_trans.
Qed.

Lemma observe_le (s : stream) (context record : dict) (b : bookmarks)
    (p : partition) :
  bookmark_le (b p) (observe s context record b p).
Proof.
  unfold observe.
  destruct (replication_key s) as [key|]; [|apply bookmark_le_refl].
  destruct (state_partitioning_keys s) as [keys|]; [|apply bookmark_le_refl].
  destruct (record !! key) as [[| | | |new| |]|]; try apply bookmark_le_refl.
  cbv zeta. set (q := partition_of keys context).
  destruct (decide (q = p)) as [->|Hne].
  - destruct (b p) as [old|] eqn:Hold; [|done].
    destruct (String.ltb old new) eqn:Hlt.
    + rewrite fn_lookup_insert. by apply string_ltb_leb.
    + rewrite Hold. apply string_leb_refl.
  - destruct (b q) as [old|]; [destruct (String.ltb old new)|];
      rewrite ?fn_lookup_insert_ne by done; apply bookmark_le_refl.
Qed.

Lemma observe_all_le (s : stream) (obs : list (dict * dict)) (b : bookmarks)
    (p : partition) :
  bookmark_le (b p) (observe_all s obs b p).
Proof.
  revert b. induction obs as [|o obs IH]; intros b; cbn.
  - apply bookmark_le_refl.
  - eapply bookmark_le_trans; [apply (observe_le s o.1 o.2)|apply IH].
Qed.

End bookmark_order.

(** C6: each of the four streams with a replication key ([events],
    [issues], [issue_comments], [issue_events]) keys its bookmarks by
    [repo] and [org]; through any run of observations the bookmark of
    every partition never decreases; one observation sets the bookmark of
    the record's partition to the record's value exactly when that value
    is greater than the bookmark (or there is none yet) and leaves it as
    it is otherwise; and it never touches the bookmark of another
    partition. *)
Theorem bookmarks_monotone (s : stream) :
  s ≠ Repositories →
  ∃ key,
    replication_key s = Some key ∧
    state_partitioning_keys s = Some ["repo"; "org"] ∧
    (∀ obs b p,
       ReplicationStateTracker.bookmark_le
         (b p) (ReplicationStateTracker.observe_all s obs b p)) ∧
    (∀ context record b new,
       record !! key = Some (VStr new) →
       ReplicationStateTracker.observe s context record b
         (ReplicationStateTracker.partition_of ["repo"; "org"] context) =
       match b (ReplicationStateTracker.partition_of ["repo"; "org"] context) with
       | Some old => if String.ltb old new then Some new else Some old
       | None => Some new
       end) ∧
    (∀ context record b p,
       p ≠ ReplicationStateTracker.partition_of ["repo"; "org"] context →
       ReplicationStateTracker.observe s context record b p = b p).
Proof.
  intros Hs.
  assert (∃ key, replication_key s = Some key ∧
                 state_partitioning_keys s = Some ["repo"; "org"])
    as (key & Hkey & Hkeys) by (destruct s; [done|by eexists..]).
  exists key. split; [done|]. split; [done|]. split; [|split].
  - intros obs b p. apply observe_all_le.
  - intros context record b new Hnew.
    unfold ReplicationStateTracker.observe. rewrite Hkey, Hkeys, Hnew. cbv zeta.
    destruct (b _) as [old|] eqn:Hold.
    + destruct (String.ltb old new); [by rewrite fn_lookup_insert|done].
    + by rewrite fn_lookup_insert.
  - intros context record b p Hp.
    unfold ReplicationStateTracker.observe. rewrite Hkey, Hkeys.
    destruct (record !! key) as [[| | | |new| |]|]; try done. cbv zeta.
    destruct (b _) as [old|]; [destruct (String.ltb old new)|];
      by rewrite ?fn_lookup_insert_ne.
Qed.

Lemma bookmarks_monotone_witness :
  ∃ key,
    replication_key Events = Some key ∧
    state_partitioning_keys Events = Some ["repo"; "org"] ∧
    (∀ obs b p,
       ReplicationStateTracker.bookmark_le
         (b p) (ReplicationStateTracker.observe_all Events obs b p)) ∧
    (∀ context record b new,
       record !! key = Some (VStr new) →
       ReplicationStateTracker.observe Events context record b
         (ReplicationStateTracker.partition_of ["repo"; "org"] context) =
       match b (ReplicationStateTracker.partition_of ["repo"; "org"] context) with
       | Some old => if String.ltb old new then Some new else Some old
       | None => Some new
       end) ∧
    (∀ context record b p,
       p ≠ ReplicationStateTracker.partition_of ["repo"; "org"] context →
       ReplicationStateTracker.observe Events context record b p = b p).
Proof. apply (bookmarks_monotone Events). discriminate. Defined.

(** Three events of two repositories, the second one older than the
    first: each repository keeps its own greatest timestamp. *)
Example bookmarks_of_two_repositories :
  let a : dict := {[ "org" := VStr "octo"; "repo" := VStr "a" ]} in
  let b : dict := {[ "org" := VStr "octo"; "repo" := VStr "b" ]} in
  let after :=
    ReplicationStateTracker.observe_all Events
      [ (a, {[ "created_at" := VStr "2021-06-02T10:00:00Z" ]});
        (b, {[ "created_at" := VStr "2021-06-03T08:30:00Z" ]});
        (a, {[ "created_at" := VStr "2021-06-01T23:59:59Z" ]}) ]
      (λ _, None) in
  after (ReplicationStateTracker.partition_of ["repo"; "org"] a)
    = Some "2021-06-02T10:00:00Z" ∧
  after (ReplicationStateTracker.partition_of ["repo"; "org"] b)
    = Some "2021-06-03T08:30:00Z".
Proof. vm_compute. done. Qed.

(** ** The result ceiling of search mode *)

Section search_ceiling.
Import SearchPagination.
Context (upstream : nat → search_response).

Lemma search_pages_length (page remaining : nat) :
  (length (search_pages upstream page remaining) ≤ remaining)%nat.
Proof.
  revert page. induction remaining as [|n IH]; intros page; cbn; [lia|].
  destruct (has_next (upstream page)); cbn; [|lia].
  specialize (IH (S page)). lia.
Qed.

Lemma search_pages_numbers (page remaining : nat) :
  (search_pages upstream page remaining).*1
    = seq page (length (search_pages upstream page remaining)).
Proof.
  revert page. induction remaining as [|n IH]; intros page; cbn; [done|].
  destruct (has_next (upstream page)); cbn; [|done]. by rewrite IH.
Qed.

Lemma search_pages_answers (page remaining : nat) :
  Forall (λ r, r.2 = upstream r.1) (search_pages upstream page remaining).
Proof.
  revert page. induction remaining as [|n IH]; intros page; cbn; [done|].
  constructor; [done|]. destruct (has_next (upstream page)); [apply IH|done].
Qed.

Lemma concat_length_bound {A} (ls : list (list A)) (n : nat) :
  Forall (λ l, (length l ≤ n)%nat) ls →
  (length (concat ls) ≤ length ls * n)%nat.
Proof.
  induction 1 as [|l ls Hl _ IH]; cbn; [lia|]. rewrite length_app. lia.
Qed.

End search_ceiling.

(** C7: for a search partition whose pages hold at most [MAX_PER_PAGE]
    matches each, whatever total the upstream reports: at most ten
    requests are made, for the pages 1, 2, ... in order and each once, so
    that no page past the tenth is asked for and none is asked for again;
    and the records yielded over all pages number at most
    [MAX_RESULTS_LIMIT], that is 1000. *)
Theorem search_results_ceiling
    (upstream : nat → SearchPagination.search_response) :
  (∀ page, Z.of_nat (length (SearchPagination.items (upstream page)))
           ≤ RepositoryStream.MAX_PER_PAGE) →
  (length (SearchPagination.requests upstream) ≤ 10)%nat ∧
  (SearchPagination.requests upstream).*1
    = seq 1 (length (SearchPagination.requests upstream)) ∧
  Forall (λ r, r.2 = upstream r.1) (SearchPagination.requests upstream) ∧
  Z.of_nat (length (SearchPagination.records upstream))
    ≤ RepositoryStream.MAX_RESULTS_LIMIT ∧
  (length (SearchPagination.records upstream) ≤ 1000)%nat.
Proof.
  intros Hpage.
  assert (length (SearchPagination.requests upstream) ≤ 10)%nat as Hlen
    by apply (search_pages_length upstream 1 SearchPagination.max_pages).
  assert (length (SearchPagination.records upstream) ≤ 1000)%nat as Hrecords.
  { unfold SearchPagination.records.
    pose proof (concat_length_bound
      ((λ r, SearchPagination.items r.2) <$> SearchPagination.requests upstream)
      100) as Hbound.
    rewrite length_fmap in Hbound.
    assert (Forall (λ l : list value, (length l ≤ 100)%nat)
              ((λ r, SearchPagination.items r.2)
                 <$> SearchPagination.requests upstream)) as Hall.
    { apply Forall_fmap.
      eapply Forall_impl; [apply search_pages_answers|].
      intros [page response] Hr. cbn in *. subst response.
      specialize (Hpage page). unfold RepositoryStream.MAX_PER_PAGE in Hpage.
      lia. }
    specialize (Hbound Hall). lia. }
  split; [done|]. split; [apply search_pages_numbers|].
  split; [apply search_pages_answers|]. split; [|done].
  unfold RepositoryStream.MAX_RESULTS_LIMIT. lia.
Qed.

Lemma search_results_ceiling_witness :
  (length (SearchPagination.requests example_upstream) ≤ 10)%nat ∧
  (SearchPagination.requests example_upstream).*1
    = seq 1 (length (SearchPagination.requests example_upstream)) ∧
  Forall (λ r, r.2 = example_upstream r.1)
    (SearchPagination.requests example_upstream) ∧
  Z.of_nat (length (SearchPagination.records example_upstream))
    ≤ RepositoryStream.MAX_RESULTS_LIMIT ∧
  (length (SearchPagination.records example_upstream) ≤ 1000)%nat.
Proof.
  apply (search_results_ceiling example_upstream).
  intros page. vm_compute. discriminate.
Defined.

(** On that upstream the ceiling is reached: ten requests, 1000 records
    out of the 5000 reported. *)
Example search_ceiling_reached :
  (SearchPagination.requests example_upstream).*1 = seq 1 10 ∧
  length (SearchPagination.records example_upstream) = 1000%nat.
Proof. vm_compute. done. Qed.

(** * Further properties of the streams *)

(** ** The request parameters of the root stream *)

(** Without a context [get_url_params] fails its assertion. With one it
    always returns: the parameter [q] is the context's [search_query] when
    there is one and the inherited [q] otherwise, and every other
    parameter is the inherited one. *)
Theorem get_url_params_adds_query `{!GitHubRequest}
    (c : dict) (token : option value) :
  RepositoryStream.get_url_params None token
    = AssertionError "Context cannot be empty for 'repositories' stream." ∧
  ∃ params,
    RepositoryStream.get_url_params (Some c) token = Returned params ∧
    params !! "q" =
      match c !! "search_query" with
      | Some q => Some q
      | None => base_get_url_params (Some c) token !! "q"
      end ∧
    ∀ k, k ≠ "q" → params !! k = base_get_url_params (Some c) token !! k.
Proof.
  split; [reflexivity|]. unfold RepositoryStream.get_url_params.
  destruct (c !! "search_query") as [q|] eqn:Hq.
  - rewrite (contains_Some _ _ _ Hq). unfold Py.dict_getitem. rewrite Hq.
    eexists. split; [done|]. split; [by rewrite lookup_insert_eq|].
    intros k Hk. by rewrite lookup_insert_ne.
  - rewrite (contains_None _ _ Hq). eexists. split; [done|]. done.
Qed.

Lemma mapM_result_Forall2 {A B} (f : A → result B) (l : list A) (k : list B) :
  mapM f l = Ok k → Forall2 (λ x y, f x = Ok y) l k.
Proof.
  revert k. induction l as [|x l IH]; intros k; cbn.
  - intros [= <-]. constructor.
  - destruct (f x) as [y|] eqn:Hx; cbn; [|done].
    destruct (mapM f l) as [k'|]; cbn; [|done].
    intros [= <-]. constructor; [done|]. by apply IH.
Qed.

(** Search mode end to end: for a configuration whose [searches] are
    entries with a name and a query, the partitions come one per entry,
    and the request made for each partition carries that entry's query as
    [q], the other parameters being the inherited ones. *)
Theorem search_partitions_carry_their_query `{!GitHubRequest}
    (config : dict) (ss : list value) (ps : list dict) (token : option value) :
  config !! "searches" = Some (VList ss) →
  Forall2 search_entry ss ps →
  RepositoryStream.partitions config = Ok (Some ps) ∧
  Forall2 (λ s p,
      ∃ query, Py.getitem s "query" = Ok query ∧
        RepositoryStream.get_url_params (Some p) token
          = Returned (<["q" := query]> (base_get_url_params (Some p) token)))
    ss ps.
Proof.
  intros Hs Hall. split.
  - unfold RepositoryStream.partitions.
    rewrite (contains_Some _ _ _ Hs). unfold Py.dict_getitem. rewrite Hs. cbn.
    rewrite (mapM_result_Ok _ ss ps); [done|].
    eapply Forall2_impl; [exact Hall|]. apply search_partition_entry.
  - eapply Forall2_impl; [exact Hall|].
    intros s p (d & name & query & -> & Hn & Hq & ->).
    exists query. split; [cbn; unfold Py.dict_getitem; by rewrite Hq|].
    unfold RepositoryStream.get_url_params.
    assert (({[ "search_name" := name; "search_query" := query ]} : dict)
              !! "search_query" = Some query) as Hlook
      by (by rewrite lookup_insert_ne, lookup_singleton_eq).
    rewrite (contains_Some _ _ _ Hlook). unfold Py.dict_getitem.
    by rewrite Hlook.
Qed.

Lemma search_partitions_carry_their_query_witness :
  RepositoryStream.partitions
    {[ "searches" := VList [VObj {[ "name" := VStr "tap"; "query" := VStr "tap- in:name" ]}] ]}
  = Ok (Some [ {[ "search_name" := VStr "tap"; "search_query" := VStr "tap- in:name" ]} ]) ∧
  Forall2 (λ s p,
      ∃ query, Py.getitem s "query" = Ok query ∧
        @RepositoryStream.get_url_params example_request (Some p) None
          = Returned (<["q" := query]>
                        (@base_get_url_params example_request (Some p) None)))
    [VObj {[ "name" := VStr "tap"; "query" := VStr "tap- in:name" ]}]
    [ {[ "search_name" := VStr "tap"; "search_query" := VStr "tap- in:name" ]} ].
Proof.
  apply (@search_partitions_carry_their_query example_request).
  - vm_compute. reflexivity.
  - repeat constructor.
    exists {[ "name" := VStr "tap"; "query" := VStr "tap- in:name" ]},
      (VStr "tap"), (VStr "tap- in:name").
    repeat split; vm_compute; reflexivity.
Defined.

(** ** The partitions of direct mode *)

Lemma repo_partition_inv (x : value) (p : dict) :
  RepositoryStream.repo_partition x = Ok p →
  ∃ s org repo rest,
    x = VStr s ∧ Py.split "/" s = org :: repo :: rest ∧
    p = {[ "org" := VStr org; "repo" := VStr repo ]}.
Proof.
  unfold RepositoryStream.repo_partition.
  destruct x as [| | | |s| |]; cbn; try done.
  destruct (Py.split "/" s) as [|org [|repo rest]] eqn:Hsplit; cbn; try done.
  intros [= <-]. by exists s, org, repo, rest.
Qed.

(** Whatever the configuration holds under [repositories]: when there are
    no [searches] and [partitions] returns a list, every partition in it
    is exactly [{org, repo}] with two strings free of ['/'], and the
    request made for it has the inherited parameters and nothing more. *)
Theorem repository_partitions_are_clean `{!GitHubRequest}
    (config : dict) (ps : list dict) (token : option value) :
  config !! "searches" = None →
  RepositoryStream.partitions config = Ok (Some ps) →
  Forall (λ p,
      ∃ org repo,
        p = {[ "org" := VStr org; "repo" := VStr repo ]} ∧
        ("/"%char ∉ chars org) ∧ ("/"%char ∉ chars repo) ∧
        RepositoryStream.get_url_params (Some p) token
          = Returned (base_get_url_params (Some p) token)) ps.
Proof.
  intros Hs. unfold RepositoryStream.partitions.
  rewrite (contains_None _ _ Hs).
  destruct (Py.contains config "repositories"); [|done].
  destruct (Py.dict_getitem config "repositories") as [r|]; cbn; [|done].
  destruct (Py.iter r) as [rs|]; cbn; [|done].
  destruct (mapM RepositoryStream.repo_partition rs) as [ps'|] eqn:Hmap;
    cbn; [|done].
  intros [= ->]. apply mapM_result_Forall2 in Hmap.
  induction Hmap as [|x p rs ps Hp _ IH]; constructor; [|done].
  apply repo_partition_inv in Hp as (s & org & repo & rest & -> & Hsplit & ->).
  pose proof (split_segments "/" s) as Hseg. rewrite Hsplit in Hseg.
  apply Forall_cons in Hseg as [Horg Hseg].
  apply Forall_cons in Hseg as [Hrepo _].
  exists org, repo. split_and!; [done..|].
  assert (({[ "org" := VStr org; "repo" := VStr repo ]} : dict)
            !! "search_query" = None) as Hlook
    by (by rewrite lookup_insert_ne, lookup_singleton_ne).
  unfold RepositoryStream.get_url_params.
  by rewrite (contains_None _ _ Hlook).
Qed.

Lemma repository_partitions_are_clean_witness :
  Forall (λ p,
      ∃ org repo,
        p = {[ "org" := VStr org; "repo" := VStr repo ]} ∧
        ("/"%char ∉ chars org) ∧ ("/"%char ∉ chars repo) ∧
        @RepositoryStream.get_url_params example_request (Some p) None
          = Returned (@base_get_url_params example_request (Some p) None))
    [ ({[ "org" := VStr "octo"; "repo" := VStr "hello-world" ]} : dict);
      {[ "org" := VStr "a"; "repo" := VStr "b" ]} ].
Proof.
  apply (@repository_partitions_are_clean example_request
           {[ "repositories" := VList [VStr "octo/hello-world"; VStr "a/b/c"] ]}).
  - vm_compute. reflexivity.
  - vm_compute. reflexivity.
Defined.

Lemma split_pair (org repo : string) :
  "/"%char ∉ chars org → "/"%char ∉ chars repo →
  Py.split "/" (org +:+ "/" +:+ repo) = [org; repo].
Proof.
  intros Horg Hrepo.
  change (org +:+ "/" +:+ repo) with (org +:+ String "/" repo).
  by rewrite split_app_sep, (split_no_sep _ _ Horg), (split_no_sep _ _ Hrepo).
Qed.

(** Writing an owner and a repository name as ["org/repo"] and
    configuring the strings gives the pairs back, in order, as the
    partitions, as long as neither part contains a ['/']. *)
Theorem repository_strings_round_trip
    (config : dict) (pairs : list (string * string)) :
  config !! "searches" = None →
  config !! "repositories"
    = Some (VList ((λ p, VStr (p.1 +:+ "/" +:+ p.2)) <$> pairs)) →
  Forall (λ p, ("/"%char ∉ chars p.1) ∧ ("/"%char ∉ chars p.2)) pairs →
  RepositoryStream.partitions config
    = Ok (Some ((λ p, {[ "org" := VStr p.1; "repo" := VStr p.2 ]}) <$> pairs)).
Proof.
  intros Hs Hr Hall. rewrite (partitions_repositories _ _ Hs Hr). cbn.
  rewrite (mapM_result_Ok _ _
    ((λ p, {[ "org" := VStr p.1; "repo" := VStr p.2 ]}) <$> pairs)); [done|].
  apply Forall2_fmap, Forall_Forall2_diag.
  eapply Forall_impl; [exact Hall|]. intros [org repo] [Horg Hrepo].
  unfold RepositoryStream.repo_partition, Py.str_split.
  cbn [fst snd mbind result_bind] in *. by rewrite (split_pair _ _ Horg Hrepo).
Qed.

Lemma repository_strings_round_trip_witness :
  RepositoryStream.partitions
    {[ "repositories" := VList [VStr "octo/hello-world"; VStr "rocq/stdlib"] ]}
  = Ok (Some [ {[ "org" := VStr "octo"; "repo" := VStr "hello-world" ]};
               {[ "org" := VStr "rocq"; "repo" := VStr "stdlib" ]} ]).
Proof.
  apply (repository_strings_round_trip _
           [("octo", "hello-world"); ("rocq", "stdlib")]).
  - vm_compute. reflexivity.
  - vm_compute. reflexivity.
  - by_compute.
Defined.

(** ** What a malformed configuration raises *)

Lemma mapM_result_first_error {A B} (f : A → result B)
    (good : list A) (bad : A) (rest : list A) (e : exn) :
  Forall (λ x, returns (f x)) good → f bad = Raise e →
  mapM f (good ++ bad :: rest) = Raise e.
Proof.
  intros Hgood Hbad. induction Hgood as [|x good [y Hy] _ IH]; cbn.
  - by rewrite Hbad.
  - rewrite Hy. cbn. by rewrite IH.
Qed.

(** The first entry of [searches] that is not as documented decides what
    [partitions] raises, the entries before it being well formed:
    [TypeError] when it is not an object, [KeyError] for [name] when it
    has no name, [KeyError] for [query] when it has a name and no query.
    [searches] that is [null] or a number raises [TypeError] before any
    entry is looked at. *)
Theorem partitions_first_malformed_search
    (config : dict) (good : list value) (bad : value) (rest : list value) :
  config !! "searches" = Some (VList (good ++ bad :: rest)) →
  Forall (λ s, ∃ p, search_entry s p) good →
  ((∀ d, bad ≠ VObj d) → RepositoryStream.partitions config = Raise TypeError) ∧
  (∀ d, bad = VObj d → d !! "name" = None →
     RepositoryStream.partitions config = Raise (KeyError "name")) ∧
  (∀ d, bad = VObj d → is_Some (d !! "name") → d !! "query" = None →
     RepositoryStream.partitions config = Raise (KeyError "query")).
Proof.
  intros Hs Hgood.
  assert (∀ e, RepositoryStream.search_partition bad = Raise e →
               RepositoryStream.partitions config = Raise e) as Hraise.
  { intros e Hbad. unfold RepositoryStream.partitions.
    rewrite (contains_Some _ _ _ Hs). unfold Py.dict_getitem. rewrite Hs. cbn.
    rewrite (mapM_result_first_error _ good bad rest e); [done| |done].
    eapply Forall_impl; [exact Hgood|]. intros s [p Hp]. exists p.
    by apply search_partition_entry. }
  split; [|split].
  - intros Hobj. apply Hraise. destruct bad as [| | | | | |d]; try done.
    by destruct (Hobj d).
  - intros d -> Hn. apply Hraise. unfold RepositoryStream.search_partition.
    cbn. unfold Py.dict_getitem. by rewrite Hn.
  - intros d -> [name Hn] Hq. apply Hraise.
    unfold RepositoryStream.search_partition.
    cbn. unfold Py.dict_getitem. rewrite Hn. cbn. by rewrite Hq.
Qed.

Lemma partitions_first_malformed_search_witness :
  RepositoryStream.partitions
    {[ "searches" := VList [VObj {[ "name" := VStr "tap"; "query" := VStr "q" ]};
                            VObj {[ "name" := VStr "no query" ]}] ]}
  = Raise (KeyError "query").
Proof.
  destruct (partitions_first_malformed_search
    {[ "searches" := VList [VObj {[ "name" := VStr "tap"; "query" := VStr "q" ]};
                            VObj {[ "name" := VStr "no query" ]}] ]}
    [VObj {[ "name" := VStr "tap"; "query" := VStr "q" ]}]
    (VObj {[ "name" := VStr "no query" ]}) []) as (_ & _ & Hquery).
  - vm_compute. reflexivity.
  - repeat constructor.
    exists {[ "search_name" := VStr "tap"; "search_query" := VStr "q" ]},
      {[ "name" := VStr "tap"; "query" := VStr "q" ]}, (VStr "tap"), (VStr "q").
    repeat split; vm_compute; reflexivity.
  - apply (Hquery {[ "name" := VStr "no query" ]}).
    + reflexivity.
    + by_compute.
    + vm_compute. reflexivity.
Defined.

(** The first string of [repositories] that cannot be split in two
    decides what [partitions] raises, the entries before it having a
    ['/']: [AttributeError] when the entry is not a string at all,
    [IndexError] when it is a string without ['/']. *)
Theorem partitions_first_malformed_repository
    (config : dict) (good : list string) (bad : value) (rest : list value) :
  config !! "searches" = None →
  config !! "repositories" = Some (VList ((VStr <$> good) ++ bad :: rest)) →
  Forall (λ s, "/"%char ∈ chars s) good →
  ((∀ s, bad ≠ VStr s) →
     RepositoryStream.partitions config = Raise AttributeError) ∧
  (∀ s, bad = VStr s → "/"%char ∉ chars s →
     RepositoryStream.partitions config = Raise IndexError).
Proof.
  intros Hs Hr Hgood.
  assert (∀ e, RepositoryStream.repo_partition bad = Raise e →
               RepositoryStream.partitions config = Raise e) as Hraise.
  { intros e Hbad. rewrite (partitions_repositories _ _ Hs Hr). cbn.
    rewrite (mapM_result_first_error _ (VStr <$> good) bad rest e); [done| |done].
    apply Forall_fmap. eapply Forall_impl; [exact Hgood|]. intros s Hslash.
    destruct (repo_partition_slash s Hslash) as (p & Hp & _). by exists p. }
  split.
  - intros Hstr. apply Hraise. destruct bad as [| | | |s| |]; try done.
    by destruct (Hstr s).
  - intros s -> Hslash. by apply Hraise, repo_partition_no_slash.
Qed.

Lemma partitions_first_malformed_repository_witness :
  RepositoryStream.partitions
    {[ "repositories" := VList [VStr "octo/hello-world"; VNull; VStr "org"] ]}
  = Raise AttributeError.
Proof.
  destruct (partitions_first_malformed_repository
    {[ "repositories" := VList [VStr "octo/hello-world"; VNull; VStr "org"] ]}
    ["octo/hello-world"] VNull [VStr "org"]) as [Hattribute _].
  - vm_compute. reflexivity.
  - vm_compute. reflexivity.
  - by_compute.
  - apply Hattribute. intros s. discriminate.
Defined.

(** ** More on context propagation *)

(** The root hop returns exactly when the record has an [owner] object
    with a [login], and a [name]; what it returns has the two keys [org]
    and [repo] and no other, whatever context it was given: the keys of a
    search partition are not handed down. *)
Theorem repository_child_context_domain
    (record : dict) (context : option dict) :
  (returns (RepositoryStream.get_child_context record context) ↔
     ∃ owner, record !! "owner" = Some (VObj owner) ∧
              is_Some (owner !! "login") ∧ is_Some (record !! "name")) ∧
  (∀ c, RepositoryStream.get_child_context record context = Ok c →
     dom c = {[ "org"; "repo" ]} ∧
     c !! "search_name" = None ∧ c !! "search_query" = None).
Proof.
  split.
  - split.
    + intros [c Hc].
      apply root_child_context_inv in Hc as (login & name & Hl & Hn & _).
      unfold owner_login, Py.dict_getitem in Hl.
      destruct (record !! "owner") as [[| | | | | |owner]|]; try done.
      cbn in Hl. unfold Py.dict_getitem in Hl.
      destruct (owner !! "login") as [l|] eqn:Hlogin; [|done].
      exists owner. by rewrite Hn.
    + intros (owner & Howner & [login Hlogin] & [name Hname]).
      exists {[ "org" := login; "repo" := name ]}.
      apply root_child_context_Ok; [|done].
      unfold owner_login, Py.dict_getitem. rewrite Howner. cbn.
      unfold Py.dict_getitem. by rewrite Hlogin.
  - intros c Hc.
    apply root_child_context_inv in Hc as (login & name & _ & _ & ->).
    split_and!.
    + rewrite dom_insert_L, dom_singleton_L. set_solver.
    + by rewrite lookup_insert_ne, lookup_singleton_ne.
    + by rewrite lookup_insert_ne, lookup_singleton_ne.
Qed.

Lemma repository_child_context_domain_witness :
  dom ({[ "org" := VStr "octo"; "repo" := VStr "hello-world" ]} : dict)
    = {[ "org"; "repo" ]} ∧
  ({[ "org" := VStr "octo"; "repo" := VStr "hello-world" ]} : dict)
    !! "search_name" = None ∧
  ({[ "org" := VStr "octo"; "repo" := VStr "hello-world" ]} : dict)
    !! "search_query" = None.
Proof.
  apply (proj2 (repository_child_context_domain example_repository
           (Some {[ "search_name" := VStr "tap"; "search_query" := VStr "q" ]}))).
  vm_compute. reflexivity.
Defined.

(** The issues hop writes into the caller's context before it has read
    everything it needs. A record without [number] raises [KeyError] and
    leaves the context as it was; a record with a [number] and without
    [comments] raises [KeyError] too, but by then the context the caller
    holds has got the record's [issue_number]. *)
Theorem issue_hop_failure_states (issue c : dict) :
  (issue !! "number" = None →
     IssuesStream.get_child_context issue (Some c)
       = (Raise (KeyError "number"), Some c)) ∧
  (∀ number,
     issue !! "number" = Some number → issue !! "comments" = None →
     IssuesStream.get_child_context issue (Some c)
       = (Raise (KeyError "comments"),
          Some (<["issue_number" := number]> c))).
Proof.
  split.
  - intros Hn. unfold IssuesStream.get_child_context, on, Py.dict_getitem.
    cbn. unfold lift, mbind, mut_bind. by rewrite Hn.
  - intros number Hn Hc.
    unfold IssuesStream.get_child_context, on, Py.dict_getitem.
    cbn. unfold lift, mbind, mut_bind. by rewrite Hn, Hc.
Qed.

Lemma issue_hop_failure_states_witness :
  IssuesStream.get_child_context {[ "number" := VInt 7 ]}
    (Some {[ "org" := VStr "octo"; "repo" := VStr "hello-world" ]})
  = (Raise (KeyError "comments"),
     Some (<["issue_number" := VInt 7]>
             {[ "org" := VStr "octo"; "repo" := VStr "hello-world" ]})).
Proof.
  apply (proj2 (issue_hop_failure_states {[ "number" := VInt 7 ]}
                  {[ "org" := VStr "octo"; "repo" := VStr "hello-world" ]})).
  - vm_compute. reflexivity.
  - vm_compute. reflexivity.
Defined.

(** Issue after issue on the same context object: what the second hop
    hands back is what it would hand back on the context before the first
    hop, so the values of the earlier issue are gone and nothing piles
    up; in particular the same issue twice changes nothing more. The keys
    of the result are those of the context and the two the hop writes. *)
Theorem issue_hops_last_wins (first second c c1 c2 : dict) :
  (IssuesStream.get_child_context first (Some c)).1 = Ok c1 →
  (IssuesStream.get_child_context second (Some c1)).1 = Ok c2 →
  (IssuesStream.get_child_context second (Some c)).1 = Ok c2 ∧
  (IssuesStream.get_child_context second (Some c2)).1 = Ok c2 ∧
  dom c2 = dom c ∪ {[ "issue_number"; "comments" ]}.
Proof.
  intros H1 H2.
  apply issue_child_context_inv in H1 as (n1 & m1 & _ & _ & ->).
  apply issue_child_context_inv in H2 as (n2 & m2 & Hn & Hm & ->).
  rewrite !(issue_child_context_Ok _ _ _ _ Hn Hm). cbn.
  assert (<["comments" := m2]> (<["issue_number" := n2]>
            (<["comments" := m1]> (<["issue_number" := n1]> c)))
          = <["comments" := m2]> (<["issue_number" := n2]> c)) as Heq.
  { apply map_eq. intros k.
    destruct (decide (k = "comments")) as [->|Hk1];
      [by rewrite !lookup_insert_eq|].
    destruct (decide (k = "issue_number")) as [->|Hk2].
    - by rewrite !(lookup_insert_ne _ "comments"), !lookup_insert_eq.
    - by rewrite !lookup_insert_ne. }
  split_and!.
  - by rewrite Heq.
  - f_equal. rewrite Heq. apply map_eq. intros k.
    destruct (decide (k = "comments")) as [->|Hk1];
      [by rewrite !lookup_insert_eq|].
    destruct (decide (k = "issue_number")) as [->|Hk2].
    + by rewrite !(lookup_insert_ne _ "comments"), !lookup_insert_eq.
    + by rewrite !lookup_insert_ne.
  - rewrite Heq, !dom_insert_L. set_solver.
Qed.

Lemma issue_hops_last_wins_witness :
  (IssuesStream.get_child_context {[ "number" := VInt 8; "comments" := VInt 3 ]}
     (Some {[ "org" := VStr "octo" ]})).1
  = Ok {[ "org" := VStr "octo"; "issue_number" := VInt 8; "comments" := VInt 3 ]}.
Proof.
  refine (proj1 (issue_hops_last_wins example_issue
           {[ "number" := VInt 8; "comments" := VInt 3 ]}
           {[ "org" := VStr "octo" ]}
           {[ "org" := VStr "octo"; "issue_number" := VInt 7; "comments" := VInt 0 ]}
           {[ "org" := VStr "octo"; "issue_number" := VInt 8; "comments" := VInt 3 ]}
           _ _)); vm_compute; reflexivity.
Defined.

(** ** More on the skip test *)

Lemma eq_zero_zero_like (v : value) : Py.eq_zero v = true ↔ zero_like v.
Proof.
  unfold zero_like. split.
  - destruct v as [|b|n|f| | |]; cbn; try done.
    + destruct b; [done|]. intros _. right. by left.
    + intros Hn%bool_decide_eq_true. left. by subst.
    + destruct f as [sign| | |]; try done. intros _. right. right. by exists sign.
  - intros [->|[->|[sign ->]]]; done.
Qed.

(** When exactly a stream with a skip test skips: the request loop is
    left out if and only if the context is a dict in which the counter
    key holds something equal to zero for Python, that is the integer [0],
    [False] or a floating-point zero. In every other case, an empty dict
    and a [null] counter included, the inherited request loop runs. *)
Theorem skip_exactly_on_zero `{!GitHubStream}
    (s : stream) (key : string) (context : option dict) :
  skip_counter s = Some key →
  (no_fetch (get_records s context).2 ↔
     ∃ c v, context = Some c ∧ c !! key = Some v ∧ zero_like v) ∧
  (¬ (∃ c v, context = Some c ∧ c !! key = Some v ∧ zero_like v) →
     get_records s context = fetched s context).
Proof.
  intros Hkey.
  assert (∀ trace : list event,
            (∃ name ctx, trace = [Fetch name ctx]) → ¬ no_fetch trace) as Hfetch.
  { intros trace (name & ctx & ->) Hno. apply (Hno name ctx). by left. }
  destruct context as [c|].
  - rewrite (get_records_skip_test s key c Hkey).
    destruct (c !! key) as [v|] eqn:Hv.
    + rewrite (dict_truthy_lookup _ _ _ Hv). unfold Py.dict_get. rewrite Hv.
      cbn. destruct (Py.eq_zero v) eqn:Hz.
      * apply eq_zero_zero_like in Hz. split.
        -- split; [intros _; by exists c, v|]. intros _ name ctx Hin.
           apply list_elem_of_singleton in Hin. discriminate.
        -- intros Hnot. destruct Hnot. by exists c, v.
      * split; [|done]. split.
        -- intros Hno. destruct (Hfetch _ ltac:(by eexists _, _) Hno).
        -- intros (c' & v' & [= <-] & Hv' & Hzero).
           rewrite Hv in Hv'. injection Hv' as <-.
           apply eq_zero_zero_like in Hzero. congruence.
    + unfold Py.dict_get. rewrite Hv. cbn. rewrite andb_false_r.
      split; [|done]. split.
      * intros Hno. destruct (Hfetch _ ltac:(by eexists _, _) Hno).
      * intros (c' & v' & [= <-] & Hv' & _). congruence.
  - rewrite get_records_no_context. split; [|done]. split.
    + intros Hno. destruct (Hfetch _ ltac:(by eexists _, _) Hno).
    + intros (c' & v' & [=] & _).
Qed.

Lemma skip_exactly_on_zero_witness :
  no_fetch (@get_records example_base Events
              (Some {[ "org" := VStr "octo"; "events" := VBool false ]})).2 ↔
  ∃ c v, Some ({[ "org" := VStr "octo"; "events" := VBool false ]} : dict) = Some c ∧
         c !! "events" = Some v ∧ zero_like v.
Proof.
  apply (proj1 (@skip_exactly_on_zero example_base Events "events"
                  (Some {[ "org" := VStr "octo"; "events" := VBool false ]})
                  eq_refl)).
Defined.

(** The issues hop and the comments stream together: on the context the
    hop hands back for an issue, the issue comments stream makes no
    request and returns nothing when the issue's [comments] count is [0],
    and runs the inherited request loop, on that same context, when the
    count is any other integer. *)
Theorem issue_comments_follow_the_count `{!GitHubStream}
    (issue c : dict) (number : value) (n : Z) :
  issue !! "number" = Some number →
  issue !! "comments" = Some (VInt n) →
  ∃ c', IssuesStream.get_child_context issue (Some c) = (Ok c', Some c') ∧
    (n = 0 →
       IssueCommentsStream.get_records (Some c')
         = ([], [LogDebug "No comments detected. Skipping 'issue_comments' sync."])) ∧
    (n ≠ 0 →
       IssueCommentsStream.get_records (Some c')
         = fetched IssueComments (Some c')).
Proof.
  intros Hn Hc. eexists. split; [by apply issue_child_context_Ok|].
  pose proof (get_records_skip_test IssueComments "comments"
    (<["comments" := VInt n]> (<["issue_number" := number]> c)) eq_refl) as Hrec.
  cbn [get_records] in Hrec. rewrite Hrec.
  rewrite (dict_truthy_lookup _ "comments" (VInt n)) by apply lookup_insert_eq.
  unfold Py.dict_get. rewrite lookup_insert_eq. cbn. split.
  - intros ->. done.
  - intros Hne. by rewrite bool_decide_eq_false_2.
Qed.

Lemma issue_comments_follow_the_count_witness :
  ∃ c', IssuesStream.get_child_context example_issue
          (Some {[ "org" := VStr "octo" ]}) = (Ok c', Some c') ∧
    (0 = 0 →
       @IssueCommentsStream.get_records example_base (Some c')
         = ([], [LogDebug "No comments detected. Skipping 'issue_comments' sync."])) ∧
    (0 ≠ 0 →
       @IssueCommentsStream.get_records example_base (Some c')
         = @fetched example_base IssueComments (Some c')).
Proof.
  apply (@issue_comments_follow_the_count example_base example_issue
           {[ "org" := VStr "octo" ]} (VInt 7) 0).
  - vm_compute. reflexivity.
  - vm_compute. reflexivity.
Defined.

(** In the declared stream graph no skip test can fire: each of the three
    streams with a skip test names the root stream as its parent, and on
    any context the root stream's [get_child_context] returns, all three
    run the inherited request loop. *)
Theorem skip_test_idle_under_declared_parent `{!GitHubStream}
    (s : stream) (key : string) (record : dict) (parent : option dict) (c : dict) :
  skip_counter s = Some key →
  RepositoryStream.get_child_context record parent = Ok c →
  parent_stream_type s = Some Repositories ∧
  get_records s (Some c) = fetched s (Some c).
Proof.
  intros Hkey Hc. split; [by destruct s|].
  apply (get_records_counter_absent s key c Hkey).
  apply root_child_context_inv in Hc as (login & name & _ & _ & ->).
  destruct s; try discriminate Hkey; injection Hkey as <-;
    by rewrite lookup_insert_ne, lookup_singleton_ne.
Qed.

Lemma skip_test_idle_under_declared_parent_witness :
  parent_stream_type IssueComments = Some Repositories ∧
  @get_records example_base IssueComments
    (Some {[ "org" := VStr "octo"; "repo" := VStr "hello-world" ]})
  = @fetched example_base IssueComments
      (Some {[ "org" := VStr "octo"; "repo" := VStr "hello-world" ]}).
Proof.
  apply (@skip_test_idle_under_declared_parent example_base IssueComments
           "comments" example_repository None).
  - reflexivity.
  - vm_compute. reflexivity.
Defined.

(** ** More on record post-processing *)

Lemma events_post_process_inv (row : dict) (context : option dict) (row' : dict) :
  (EventsStream.post_process row context).1 = Ok row' →
  ∃ repo org,
    row !! "repo" = Some repo ∧ row !! "org" = Some org ∧
    row' = <["target_org" := org]> (delete "org"
             (<["target_repo" := repo]> (delete "repo" row))).
Proof.
  destruct (row !! "repo") as [repo|] eqn:Hrepo.
  - destruct (row !! "org") as [org|] eqn:Horg.
    + rewrite (events_post_process_Ok _ _ _ _ Hrepo Horg). cbn.
      intros [= <-]. by exists repo, org.
    + unfold EventsStream.post_process. unfold_mut. rewrite Hrepo. cbn.
      by rewrite lookup_insert_ne, lookup_delete_ne, Horg.
  - unfold EventsStream.post_process. unfold_mut. by rewrite Hrepo.
Qed.

(** What a failed renaming leaves behind. An events record without [repo]
    is left as it was; one with [repo] and without [org] is left half
    renamed, [repo] already moved to [target_repo], when [KeyError] is
    raised. *)
Theorem events_post_process_failure_states
    (row : dict) (context : option dict) :
  (row !! "repo" = None →
     EventsStream.post_process row context = (Raise (KeyError "repo"), row)) ∧
  (∀ repo,
     row !! "repo" = Some repo → row !! "org" = None →
     EventsStream.post_process row context
       = (Raise (KeyError "org"),
          <["target_repo" := repo]> (delete "repo" row))).
Proof.
  split.
  - intros Hrepo. unfold EventsStream.post_process. unfold_mut.
    by rewrite Hrepo.
  - intros repo Hrepo Horg. unfold EventsStream.post_process. unfold_mut.
    rewrite Hrepo. cbn. by rewrite lookup_insert_ne, lookup_delete_ne, Horg.
Qed.

Lemma events_post_process_failure_states_witness :
  EventsStream.post_process
    {[ "id" := VStr "1"; "repo" := VObj {[ "name" := VStr "octo/hello-world" ]} ]}
    None
  = (Raise (KeyError "org"),
     <["target_repo" := VObj {[ "name" := VStr "octo/hello-world" ]}]>
       (delete "repo"
          {[ "id" := VStr "1";
             "repo" := VObj {[ "name" := VStr "octo/hello-world" ]} ]})).
Proof.
  apply (proj2 (events_post_process_failure_states _ None)).
  - vm_compute. reflexivity.
  - vm_compute. reflexivity.
Defined.

(** A renamed events record has the keys of the record it came from,
    with [target_repo] and [target_org] in place of [repo] and [org]; it
    cannot be renamed a second time: [post_process] on it raises
    [KeyError] for [repo]. *)
Theorem events_post_process_once
    (row : dict) (context : option dict) (row' : dict) :
  (EventsStream.post_process row context).1 = Ok row' →
  dom row' = (dom row ∖ {[ "repo"; "org" ]}) ∪ {[ "target_repo"; "target_org" ]} ∧
  ∀ context', EventsStream.post_process row' context'
              = (Raise (KeyError "repo"), row').
Proof.
  intros Hok.
  apply events_post_process_inv in Hok as (repo & org & Hrepo & Horg & ->).
  split.
  - rewrite dom_insert_L, dom_delete_L, dom_insert_L, dom_delete_L.
    apply elem_of_dom_2 in Hrepo, Horg. set_solver.
  - intros context'. unfold EventsStream.post_process. unfold_mut.
    by rewrite lookup_insert_ne, lookup_delete_ne, lookup_insert_ne,
      lookup_delete_eq.
Qed.

Lemma events_post_process_once_witness :
  dom (<["target_org" := VStr "o"]> (delete "org"
         (<["target_repo" := VStr "r"]> (delete "repo"
            ({[ "repo" := VStr "r"; "org" := VStr "o" ]} : dict)))))
  = (dom ({[ "repo" := VStr "r"; "org" := VStr "o" ]} : dict)
       ∖ {[ "repo"; "org" ]}) ∪ {[ "target_repo"; "target_org" ]} ∧
  ∀ context',
    EventsStream.post_process
      (<["target_org" := VStr "o"]> (delete "org"
         (<["target_repo" := VStr "r"]> (delete "repo"
            ({[ "repo" := VStr "r"; "org" := VStr "o" ]} : dict))))) context'
    = (Raise (KeyError "repo"),
       <["target_org" := VStr "o"]> (delete "org"
         (<["target_repo" := VStr "r"]> (delete "repo"
            ({[ "repo" := VStr "r"; "org" := VStr "o" ]} : dict))))).
Proof.
  apply (events_post_process_once
           {[ "repo" := VStr "r"; "org" := VStr "o" ]} None).
  vm_compute. reflexivity.
Defined.

Lemma issue_comments_post_process_inv `{!PythonRuntime}
    (row : dict) (context : option dict) (row' : dict) :
  (IssueCommentsStream.post_process row context).1 = Ok row' →
  ∃ url segment n,
    row !! "issue_url" = Some (VStr url) ∧
    last (Py.split "/" url) = Some segment ∧
    Py.int_of_str segment = Ok n ∧
    row' = <["issue_number" := VInt n]> row.
Proof.
  unfold IssueCommentsStream.post_process. unfold_mut.
  destruct (row !! "issue_url") as [[| | | |url| |]|] eqn:Hurl; cbn; try done.
  pose proof (split_nonempty "/" url) as Hne.
  destruct (last (Py.split "/" url)) as [segment|] eqn:Hlast.
  - rewrite (list_getitem_last _ (VStr segment))
      by (by rewrite fmap_last, Hlast).
    cbn. destruct (Py.int_of_str segment) as [n|] eqn:Hint; cbn; [|done].
    intros [= <-]. by exists url, segment, n.
  - apply last_None in Hlast. done.
Qed.

Lemma issue_comments_post_process_Ok `{!PythonRuntime}
    (row : dict) (context : option dict) (url segment : string) (n : Z) :
  row !! "issue_url" = Some (VStr url) →
  last (Py.split "/" url) = Some segment →
  Py.int_of_str segment = Ok n →
  IssueCommentsStream.post_process row context
    = (Ok (<["issue_number" := VInt n]> row), <["issue_number" := VInt n]> row).
Proof.
  intros Hurl Hlast Hint.
  unfold IssueCommentsStream.post_process. unfold_mut. rewrite Hurl. cbn.
  rewrite (list_getitem_last _ (VStr segment)) by (by rewrite fmap_last, Hlast).
  cbn. by rewrite Hint.
Qed.

(** Deriving the issue number of a comment changes [issue_number] and
    nothing else, and doing it again changes nothing: on the record it
    returned, [post_process] returns that same record. *)
Theorem issue_comments_post_process_idempotent `{!PythonRuntime}
    (row : dict) (context : option dict) (row' : dict) :
  (IssueCommentsStream.post_process row context).1 = Ok row' →
  (∀ k, k ≠ "issue_number" → row' !! k = row !! k) ∧
  (∃ n, row' !! "issue_number" = Some (VInt n)) ∧
  ∀ context', IssueCommentsStream.post_process row' context' = (Ok row', row').
Proof.
  intros Hok.
  apply issue_comments_post_process_inv in Hok
    as (url & segment & n & Hurl & Hlast & Hint & ->).
  split_and!.
  - intros k Hk. by rewrite lookup_insert_ne.
  - exists n. by rewrite lookup_insert_eq.
  - intros context'.
    rewrite (issue_comments_post_process_Ok _ _ url segment n);
      [|by rewrite lookup_insert_ne|done..].
    by rewrite insert_insert_eq.
Qed.

Lemma issue_comments_post_process_idempotent_witness :
    @IssueCommentsStream.post_process example_runtime
      (<["issue_number" := VInt 42]>
         {[ "issue_url" := VStr "https://api.github.com/repos/o/r/issues/42" ]})
      None
    = (Ok (<["issue_number" := VInt 42]>
         {[ "issue_url" := VStr "https://api.github.com/repos/o/r/issues/42" ]}),
       <["issue_number" := VInt 42]>
         {[ "issue_url" := VStr "https://api.github.com/repos/o/r/issues/42" ]}).
Proof.
  refine (proj2 (proj2 (@issue_comments_post_process_idempotent example_runtime
    {[ "issue_url" := VStr "https://api.github.com/repos/o/r/issues/42" ]}
    None _ _)) None).
  vm_compute. reflexivity.
Defined.

(** How a comment's [issue_url] can fail to give a number: a value that
    is not a string raises [AttributeError]; a URL whose last segment
    [int] refuses raises what [int] raises, and a URL that ends in ['/']
    raises [ValueError] on every interpreter. In each case, as for a
    missing [issue_url], the record is left as it was. *)
Theorem issue_comments_post_process_failures `{!PythonRuntime}
    (row : dict) (context : option dict) :
  (∀ v, row !! "issue_url" = Some v → (∀ url, v ≠ VStr url) →
     IssueCommentsStream.post_process row context = (Raise AttributeError, row)) ∧
  (∀ url segment e,
     row !! "issue_url" = Some (VStr url) →
     last (Py.split "/" url) = Some segment →
     Py.int_of_str segment = Raise e →
     IssueCommentsStream.post_process row context = (Raise e, row)) ∧
  (∀ prefix,
     row !! "issue_url" = Some (VStr (prefix +:+ "/")) →
     IssueCommentsStream.post_process row context = (Raise ValueError, row)) ∧
  (∀ e, (IssueCommentsStream.post_process row context).1 = Raise e →
     (IssueCommentsStream.post_process row context).2 = row).
Proof.
  assert (∀ url segment e,
     row !! "issue_url" = Some (VStr url) →
     last (Py.split "/" url) = Some segment →
     Py.int_of_str segment = Raise e →
     IssueCommentsStream.post_process row context = (Raise e, row))
    as Hvalue.
  { intros url segment e Hurl Hlast Hint.
    unfold IssueCommentsStream.post_process. unfold_mut. rewrite Hurl. cbn.
    rewrite (list_getitem_last _ (VStr segment))
      by (by rewrite fmap_last, Hlast).
    cbn. by rewrite Hint. }
  split_and!.
  - intros v Hv Hstr. unfold IssueCommentsStream.post_process. unfold_mut.
    rewrite Hv. cbn. destruct v as [| | | |url| |]; try done.
    by destruct (Hstr url).
  - exact Hvalue.
  - intros prefix Hurl. apply (Hvalue _ "" _ Hurl); [|reflexivity].
    change (prefix +:+ "/") with (prefix +:+ String "/" "").
    apply split_last_segment, not_elem_of_nil.
  - intros e. unfold IssueCommentsStream.post_process. unfold_mut.
    destruct (row !! "issue_url") as [[| | | |url| |]|]; cbn; try done.
    destruct (Py.list_getitem (VStr <$> Py.split "/" url) (-1)) as [v|];
      cbn; [|done].
    destruct (Py.int v); cbn; done.
Qed.

Lemma issue_comments_post_process_failures_witness :
  @IssueCommentsStream.post_process example_runtime
    {[ "issue_url" := VStr ("https://api.github.com/repos/o/r/issues" +:+ "/") ]}
    None
  = (Raise ValueError,
     {[ "issue_url" := VStr ("https://api.github.com/repos/o/r/issues" +:+ "/") ]}).
Proof.
  apply (proj1 (proj2 (proj2
           (@issue_comments_post_process_failures example_runtime _ None)))
           "https://api.github.com/repos/o/r/issues").
  vm_compute. reflexivity.
Defined.

Lemma issue_events_post_process_inv `{!PythonRuntime}
    (row : dict) (context : option dict) (row' : dict) :
  (IssueEventsStream.post_process row context).1 = Ok row' →
  ∃ issue number n url,
    row !! "issue" = Some (VObj issue) ∧
    issue !! "number" = Some number ∧ Py.int number = Ok n ∧
    issue !! "url" = Some url ∧
    row' = <["issue_url" := url]> (<["issue_number" := VInt n]> row).
Proof.
  unfold IssueEventsStream.post_process. unfold_mut.
  destruct (row !! "issue") as [[| | | | | |issue]|] eqn:Hissue; cbn; try done.
  unfold Py.dict_getitem.
  destruct (issue !! "number") as [number|] eqn:Hnumber; cbn; [|done].
  destruct (Py.int number) as [n|] eqn:Hint; cbn; [|done].
  rewrite lookup_insert_ne by done. rewrite Hissue. cbn.
  unfold Py.dict_getitem.
  destruct (issue !! "url") as [url|] eqn:Hu; cbn; [|done].
  intros [= <-]. by exists issue, number, n, url.
Qed.

Lemma issue_events_post_process_Ok `{!PythonRuntime}
    (row : dict) (context : option dict) (issue : dict) (number url : value)
    (n : Z) :
  row !! "issue" = Some (VObj issue) →
  issue !! "number" = Some number → Py.int number = Ok n →
  issue !! "url" = Some url →
  IssueEventsStream.post_process row context =
    (Ok (<["issue_url" := url]> (<["issue_number" := VInt n]> row)),
     <["issue_url" := url]> (<["issue_number" := VInt n]> row)).
Proof.
  intros Hissue Hnumber Hint Hu.
  unfold IssueEventsStream.post_process. unfold_mut.
  rewrite Hissue. cbn. unfold Py.dict_getitem. rewrite Hnumber. cbn.
  rewrite Hint. cbn.
  rewrite lookup_insert_ne by done. rewrite Hissue. cbn.
  unfold Py.dict_getitem. by rewrite Hu.
Qed.

(** Deriving the issue of an issue event touches [issue_number] and
    [issue_url] only, the nested [issue] object staying in the record, and
    doing it again changes nothing: on the record it returned,
    [post_process] returns that same record. *)
Theorem issue_events_post_process_idempotent `{!PythonRuntime}
    (row : dict) (context : option dict) (row' : dict) :
  (IssueEventsStream.post_process row context).1 = Ok row' →
  (∀ k, k ≠ "issue_number" → k ≠ "issue_url" → row' !! k = row !! k) ∧
  (∃ issue, row' !! "issue" = Some (VObj issue) ∧
            row' !! "issue_url" = issue !! "url") ∧
  ∀ context', IssueEventsStream.post_process row' context' = (Ok row', row').
Proof.
  intros Hok.
  apply issue_events_post_process_inv in Hok
    as (issue & number & n & url & Hissue & Hnumber & Hint & Hu & ->).
  split_and!.
  - intros k Hk1 Hk2. by rewrite !lookup_insert_ne.
  - exists issue. split.
    + by rewrite !lookup_insert_ne.
    + by rewrite lookup_insert_eq.
  - intros context'.
    rewrite (issue_events_post_process_Ok _ _ issue number url n);
      [|by rewrite !lookup_insert_ne|done..].
    assert (<["issue_url" := url]> (<["issue_number" := VInt n]>
              (<["issue_url" := url]> (<["issue_number" := VInt n]> row)))
            = <["issue_url" := url]> (<["issue_number" := VInt n]> row))
      as ->; [|done].
    apply map_eq. intros k.
    destruct (decide (k = "issue_url")) as [->|Hk1];
      [by rewrite !lookup_insert_eq|].
    destruct (decide (k = "issue_number")) as [->|Hk2].
    + by rewrite !(lookup_insert_ne _ "issue_url"), !lookup_insert_eq.
    + by rewrite !lookup_insert_ne.
Qed.

Lemma issue_events_post_process_idempotent_witness :
    @IssueEventsStream.post_process example_runtime
      (<["issue_url" := VStr "u"]> (<["issue_number" := VInt 7]>
         {[ "issue" := VObj {[ "number" := VInt 7; "url" := VStr "u" ]} ]}))
      None
    = (Ok (<["issue_url" := VStr "u"]> (<["issue_number" := VInt 7]>
         {[ "issue" := VObj {[ "number" := VInt 7; "url" := VStr "u" ]} ]})),
       <["issue_url" := VStr "u"]> (<["issue_number" := VInt 7]>
         {[ "issue" := VObj {[ "number" := VInt 7; "url" := VStr "u" ]} ]})).
Proof.
  refine (proj2 (proj2 (@issue_events_post_process_idempotent example_runtime
    {[ "issue" := VObj {[ "number" := VInt 7; "url" := VStr "u" ]} ]}
    None _ _)) None).
  vm_compute. reflexivity.
Defined.

(** What a failed derivation leaves behind. An issue event whose [issue]
    has no [number], or a number [int] refuses, is left as it was; one
    whose [issue] has a number and no [url] raises [KeyError] for [url]
    after [issue_number] has been written into the record. *)
Theorem issue_events_post_process_failure_states `{!PythonRuntime}
    (row : dict) (context : option dict) (issue : dict) :
  row !! "issue" = Some (VObj issue) →
  (issue !! "number" = None →
     IssueEventsStream.post_process row context
       = (Raise (KeyError "number"), row)) ∧
  (∀ number e,
     issue !! "number" = Some number → Py.int number = Raise e →
     IssueEventsStream.post_process row context = (Raise e, row)) ∧
  (∀ number n,
     issue !! "number" = Some number → Py.int number = Ok n →
     issue !! "url" = None →
     IssueEventsStream.post_process row context
       = (Raise (KeyError "url"), <["issue_number" := VInt n]> row)).
Proof.
  intros Hissue. split_and!.
  - intros Hnumber. unfold IssueEventsStream.post_process. unfold_mut.
    rewrite Hissue. cbn. unfold Py.dict_getitem. by rewrite Hnumber.
  - intros number e Hnumber Hint.
    unfold IssueEventsStream.post_process. unfold_mut.
    rewrite Hissue. cbn. unfold Py.dict_getitem. rewrite Hnumber. cbn.
    by rewrite Hint.
  - intros number n Hnumber Hint Hu.
    unfold IssueEventsStream.post_process. unfold_mut.
    rewrite Hissue. cbn. unfold Py.dict_getitem. rewrite Hnumber. cbn.
    rewrite Hint. cbn.
    rewrite lookup_insert_ne by done. rewrite Hissue. cbn.
    unfold Py.dict_getitem. by rewrite Hu.
Qed.

Lemma issue_events_post_process_failure_states_witness :
  @IssueEventsStream.post_process example_runtime
    {[ "issue" := VObj {[ "number" := VInt 7 ]} ]} None
  = (Raise (KeyError "url"),
     <["issue_number" := VInt 7]> {[ "issue" := VObj {[ "number" := VInt 7 ]} ]}).
Proof.
  refine (proj2 (proj2 (@issue_events_post_process_failure_states example_runtime
    {[ "issue" := VObj {[ "number" := VInt 7 ]} ]} None
    {[ "number" := VInt 7 ]} _)) (VInt 7) 7 _ _ _); vm_compute; reflexivity.
Defined.

(** ** The schemas *)

Lemma declared_elem (k : string) (properties : list (string * jsontype)) :
  k ∈ properties.*1 → k ∈ declared properties.
Proof. intros Hk. unfold declared. by apply elem_of_list_to_set. Qed.

(** Whatever [post_process] adds to a record is declared: for each of the
    three streams that define it, every key of the record it returns is a
    key of the record it was given or a property of the stream's schema;
    and the [issue_number] the two issue streams write is an integer,
    under a property declared as an integer. *)
Theorem post_process_adds_declared_fields `{!PythonRuntime}
    (s : stream) (f : dict → option dict → result dict * dict)
    (row : dict) (context : option dict) (row' : dict) :
  post_process s = Some f →
  (f row context).1 = Ok row' →
  dom row' ⊆ dom row ∪ declared (schema s) ∧
  (s ≠ Events →
     ∃ n, row' !! "issue_number" = Some (VInt n) ∧
          declarations "issue_number" (schema s) = [IntegerType]).
Proof.
  intros Hs Hok. destruct s; try discriminate Hs; injection Hs as <-.
  - apply events_post_process_inv in Hok as (repo & org & _ & _ & ->).
    split; [|done].
    assert ("target_repo" ∈ declared (schema Events)) as Hrepo
      by (apply declared_elem; by_compute).
    assert ("target_org" ∈ declared (schema Events)) as Horg
      by (apply declared_elem; by_compute).
    rewrite dom_insert_L, dom_delete_L, dom_insert_L, dom_delete_L.
    generalize dependent (declared (schema Events)). set_solver.
  - apply issue_comments_post_process_inv in Hok
      as (url & segment & n & _ & _ & _ & ->).
    split.
    + assert ("issue_number" ∈ declared (schema IssueComments)) as Hnumber
        by (apply declared_elem; by_compute).
      rewrite dom_insert_L.
      generalize dependent (declared (schema IssueComments)). set_solver.
    + intros _. exists n. split; [by rewrite lookup_insert_eq|reflexivity].
  - apply issue_events_post_process_inv in Hok
      as (issue & number & n & url & _ & _ & _ & _ & ->).
    split.
    + assert ("issue_number" ∈ declared (schema IssueEvents)) as Hnumber
        by (apply declared_elem; by_compute).
      assert ("issue_url" ∈ declared (schema IssueEvents)) as Hurl
        by (apply declared_elem; by_compute).
      rewrite !dom_insert_L.
      generalize dependent (declared (schema IssueEvents)). set_solver.
    + intros _. exists n.
      split; [by rewrite lookup_insert_ne, lookup_insert_eq|reflexivity].
Qed.

Lemma post_process_adds_declared_fields_witness :
  dom (<["issue_number" := VInt 42]>
         ({[ "issue_url" := VStr "https://api.github.com/repos/o/r/issues/42" ]}
            : dict))
    ⊆ dom ({[ "issue_url" := VStr "https://api.github.com/repos/o/r/issues/42" ]}
             : dict)
      ∪ declared (schema IssueComments).
Proof.
  refine (proj1 (@post_process_adds_declared_fields example_runtime
    IssueComments (@IssueCommentsStream.post_process example_runtime)
    {[ "issue_url" := VStr "https://api.github.com/repos/o/r/issues/42" ]}
    None _ eq_refl _)).
  vm_compute. reflexivity.
Defined.

(** The attributes of the classes agree with their schemas: in every
    stream that declares them, the replication key is a property declared
    once, as a date-time; each state partitioning key is a property
    declared once, as a string; and each primary key is a property
    declared once, as an integer. *)
Theorem key_attributes_are_declared (s : stream) :
  (∀ key, replication_key s = Some key →
     declarations key (schema s) = [DateTimeType]) ∧
  (∀ keys k, state_partitioning_keys s = Some keys → k ∈ keys →
     declarations k (schema s) = [StringType]) ∧
  (∀ keys k, primary_keys s = Some keys → k ∈ keys →
     declarations k (schema s) = [IntegerType]).
Proof.
  split_and!.
  - intros key Hkey. destruct s; try discriminate Hkey;
      injection Hkey as <-; reflexivity.
  - intros keys k Hkeys Hk. destruct s; try discriminate Hkeys;
      injection Hkeys as <-;
      apply elem_of_cons in Hk as [->|Hk]; try reflexivity;
      apply list_elem_of_singleton in Hk as ->; reflexivity.
  - intros keys k Hkeys Hk. destruct s; try discriminate Hkeys;
      injection Hkeys as <-;
      apply list_elem_of_singleton in Hk as ->; reflexivity.
Qed.

Lemma key_attributes_are_declared_witness :
  declarations "updated_at" (schema Issues) = [DateTimeType] ∧
  declarations "org" (schema IssueEvents) = [StringType] ∧
  declarations "id" (schema Events) = [IntegerType].
Proof.
  split_and!.
  - apply (proj1 (key_attributes_are_declared Issues)). reflexivity.
  - apply (proj1 (proj2 (key_attributes_are_declared IssueEvents))
             ["repo"; "org"]); [reflexivity|by_compute].
  - apply (proj2 (proj2 (key_attributes_are_declared Events)) ["id"]);
      [reflexivity|by_compute].
Defined.

(** ** The headers of the issues stream *)

(** Whatever the inherited headers are, and whether or not they already
    have an [Accept], the issues stream asks for the reactions preview and
    passes every other header on as it is. *)
Theorem issues_http_headers_accept `{!GitHubRequest} :
  IssuesStream.http_headers !! "Accept"
    = Some (VStr "application/vnd.github.squirrel-girl-preview") ∧
  (∀ k, k ≠ "Accept" → IssuesStream.http_headers !! k = base_http_headers !! k) ∧
  dom IssuesStream.http_headers = dom base_http_headers ∪ {[ "Accept" ]}.
Proof.
  unfold IssuesStream.http_headers. split_and!.
  - by rewrite lookup_insert_eq.
  - intros k Hk. by rewrite lookup_insert_ne.
  - rewrite dom_insert_L. set_solver.
Qed.
